(** * Per-category analysis of the interactive review report

A shallow embedding of [generate_interactive_report.py].  The script
loads a table of product reviews, checks that the columns it needs are
there, and for every category computes a report: the best three
products by mean rating, the worst one, a few summaries for each, and
two bar charts.

The table is a list of rows.  A cell that [read_csv] loads as missing
(an empty field of the file) is [None]: a product name, a category, a
sentiment label and a summary can each be missing, and pandas treats a
missing cell in its own way in every operation ([==] is false on it,
[groupby] and [value_counts] leave it out, [unique] keeps it as one
value).  A rating is present in every row; ratings are the integer
star ratings of the data set, and a mean rating is the exact quotient
sum / count, where pandas computes a rounded [float64] image of it. *)

From Stdlib Require Import String Ascii ZArith QArith Bool Arith Lia Lqa.
From Stdlib Require Import List Permutation Sorted.
Import ListNotations.

Local Close Scope Q_scope.
Local Open Scope string_scope.
Local Open Scope nat_scope.
Local Open Scope list_scope.

(** ** The review table *)

Record Row := mkRow {
name : option string;
product_category : option string;
reviews_rating : Z;
rating_sentiment : option string;
chatgpt_summary : option string
}.

Definition DataFrame := list Row.

(** The frame [groupby('name')['reviews.rating'].mean().reset_index()]. *)
Record ProductRating := mkProductRating {
pr_name : string;
pr_rating : Q
}.

(** ** The pandas operations the script calls *)

Module Pandas.

(** [column == value], cell by cell: a missing cell equals nothing, a
    missing value included. *)
Definition eq (cell value : option string) : bool :=
  match cell, value with
  | Some a, Some b => String.eqb a b
  | _, _ => false
  end.

(** Two cells hold the same value for [unique()], which keeps the
    missing value as one value. *)
Definition same (a b : option string) : bool :=
  match a, b with
  | Some x, Some y => String.eqb x y
  | None, None => true
  | _, _ => false
  end.

(** [Series.unique()]: the distinct values, in order of first appearance. *)
Fixpoint unique {A : Type} (eqb : A -> A -> bool) (l : list A) : list A :=
  match l with
  | [] => []
  | x :: t => x :: filter (fun y => negb (eqb x y)) (unique eqb t)
  end.

(** [Series.dropna()]. *)
Definition dropna {A : Type} (l : list (option A)) : list A :=
  flat_map (fun c => match c with Some x => [x] | None => [] end) l.

(** [Series.mean()] of an integer column with at least one cell: sum
    over count. *)
Definition mean (l : list Z) : Q :=
  fold_right Z.add 0%Z l # Pos.of_nat (length l).

(** Positional indexing [frame.take(indexer)] / [array[indexer]].  numpy
    raises on a position past the end; no indexer built below has one. *)
Definition take {A : Type} (frame : list A) (indexer : list nat) : list A :=
  flat_map (fun i => match nth_error frame i with
                     | Some x => [x]
                     | None => []
                     end) indexer.

(** [head(n)]. *)
Definition head {A : Type} (n : nat) (frame : list A) : list A :=
  firstn n frame.

(** Number of cells of a column equal to [k]. *)
Definition count {A : Type} (eqb : A -> A -> bool) (k : A) (l : list A) : nat :=
  length (filter (eqb k) l).

(** Group keys come out of [groupby] sorted ([sort=True] is the default);
    the keys are distinct, so the order is the lexicographic one.  Rows
    whose key is missing belong to no group ([dropna=True] is the
    default). *)
Fixpoint insert_key (k : string) (l : list string) : list string :=
  match l with
  | [] => [k]
  | h :: t => if String.leb k h then k :: l else h :: insert_key k t
  end.

Definition sort_keys (l : list string) : list string :=
  fold_right insert_key [] l.

Definition group_keys (frame : DataFrame) : list string :=
  sort_keys (unique String.eqb (dropna (map name frame))).

(** [frame.groupby('name')['reviews.rating'].mean().reset_index()]. *)
Definition groupby_name_mean (frame : DataFrame) : list ProductRating :=
  map (fun k =>
         mkProductRating k
           (mean (map reviews_rating
                      (filter (fun r => eq (name r) (Some k)) frame))))
      (group_keys frame).

Section Sorting.

(** [ndarray.argsort(kind='quicksort')], the routine behind
    [sort_values] and [sort_index] when no [kind] is passed, as the
    script does everywhere.  pandas documents that only [mergesort]
    and [stable] keep equal keys in their original order, so the
    routine is left open here. *)
Variable argsort : list Q -> list nat.

(** [pandas.core.sorting.nargsort]: a descending sort reverses the
    values, sorts ascending and reverses the result. *)
Definition nargsort (items : list Q) (ascending : bool) : list nat :=
  let idx := seq 0 (length items) in
  if ascending then take idx (argsort items)
  else rev (take (rev idx) (argsort (rev items))).

(** [frame.sort_values(by, ascending=...)]. *)
Definition sort_values {A : Type} (by_ : A -> Q) (ascending : bool)
           (frame : list A) : list A :=
  take frame (nargsort (map by_ frame) ascending).

(** [Series.value_counts()]: the missing cells are left out
    ([dropna=True] is the default); one entry per distinct value, sorted
    by descending count. *)
Definition value_counts {A : Type} (eqb : A -> A -> bool) (l : list (option A))
  : list (A * nat) :=
  let present := dropna l in
  sort_values (fun e => inject_Z (Z.of_nat (snd e))) false
              (map (fun k => (k, count eqb k present)) (unique eqb present)).

(** [Series.sort_index()] on an integer index. *)
Definition sort_index {B : Type} (s : list (Z * B)) : list (Z * B) :=
  sort_values (fun e => inject_Z (fst e)) true s.

End Sorting.

End Pandas.

(** ** Two sorting routines of numpy *)

Module Numpy.

(** [Tag::less] on keys. *)
Definition less (a b : Q) : bool := negb (Qle_bool b a).

(** [a[i] = x]. *)
Fixpoint upd {A : Type} (i : nat) (x : A) (a : list A) : list A :=
  match a, i with
  | [], _ => []
  | _ :: t, O => x :: t
  | h :: t, S j => h :: upd j x t
  end.

Section Argsort.

(** The keys [v]; the routines permute an index array [tosort]. *)
Variable v : list Q.

Definition key (i : nat) : Q := nth i v 0%Q.
Definition at_ (tosort : list nat) (p : nat) : nat := nth p tosort O.
Definition val (tosort : list nat) (p : nat) : Q := key (at_ tosort p).

(** [INTP_SWAP]: exchange the indices at positions [p] and [q]. *)
Definition swap (tosort : list nat) (p q : nat) : list nat :=
  upd q (at_ tosort p) (upd p (at_ tosort q) tosort).

(** *** [argsort(kind='stable')], as a straight insertion sort: each index
    goes behind the indices already placed whose key is not greater.  The
    script never asks for it; it is here to compare the order of ties. *)
Fixpoint insert_index (i : nat) (sorted : list nat) : list nat :=
  match sorted with
  | [] => [i]
  | j :: t => if less (key i) (key j) then i :: sorted
              else j :: insert_index i t
  end.

Definition argsort_stable : list nat :=
  fold_left (fun sorted i => insert_index i sorted) (seq 0 (length v)) [].

(** *** [argsort(kind='quicksort')]: [aquicksort_] of [npysort/quicksort.cpp],
    the scalar routine, which is the default the script gets.  Partitions
    of more than 17 indices are split around the median of three; shorter
    ones are finished by insertion; a partition reached too deep is
    heap-sorted.  The loops of the C code run on fuel here; the proofs
    below show the fuel given is enough. *)

(** [do { ++pi; } while (less(v[*pi], vp))], entered after the increment. *)
Fixpoint scan_up (fuel : nat) (tosort : list nat) (vp : Q) (pi : nat) : nat :=
  match fuel with
  | O => pi
  | S f => if less (val tosort pi) vp then scan_up f tosort vp (S pi) else pi
  end.

(** [do { --pj; } while (less(vp, v[*pj]))], entered after the decrement. *)
Fixpoint scan_down (fuel : nat) (tosort : list nat) (vp : Q) (pj : nat) : nat :=
  match fuel with
  | O => pj
  | S f => if less vp (val tosort pj) then scan_down f tosort vp (pj - 1) else pj
  end.

(** The [for (;;)] loop of the partition; returns the array and [pi]. *)
Fixpoint partition_loop (fuel : nat) (tosort : list nat) (vp : Q) (pi pj : nat)
  : list nat * nat :=
  match fuel with
  | O => (tosort, pi)
  | S f =>
      let pi := scan_up (length tosort) tosort vp (S pi) in
      let pj := scan_down (length tosort) tosort vp (pj - 1) in
      if pj <=? pi then (tosort, pi)
      else partition_loop f (swap tosort pi pj) vp pi pj
  end.

Definition partition (tosort : list nat) (pl pr : nat) : list nat * nat :=
  let pm := pl + (pr - pl) / 2 in
  let tosort :=
    if less (val tosort pm) (val tosort pl) then swap tosort pm pl else tosort in
  let tosort :=
    if less (val tosort pr) (val tosort pm) then swap tosort pr pm else tosort in
  let tosort :=
    if less (val tosort pm) (val tosort pl) then swap tosort pm pl else tosort in
  let vp := val tosort pm in
  let tosort := swap tosort pm (pr - 1) in
  let '(tosort, pi) := partition_loop (length tosort) tosort vp pl (pr - 1) in
  (swap tosort pi (pr - 1), pi).

(** The inner [while] of the insertion sort: slide [vi] down to its place. *)
Fixpoint slide (fuel : nat) (tosort : list nat) (pl vi pj : nat) : list nat :=
  match fuel with
  | O => upd pj vi tosort
  | S f =>
      if (pl <? pj) && less (key vi) (val tosort (pj - 1))
      then slide f (upd pj (at_ tosort (pj - 1)) tosort) pl vi (pj - 1)
      else upd pj vi tosort
  end.

Definition insertion (tosort : list nat) (pl pr : nat) : list nat :=
  fold_left (fun tosort pi => slide pi tosort pl (at_ tosort pi) pi)
            (seq (S pl) (pr - pl)) tosort.

(** [aheapsort_] on the [n] indices from [pl] on; [a[k]] is [tosort[pl+k-1]]. *)
Fixpoint sift (fuel : nat) (tosort : list nat) (pl n tmp i j : nat) : list nat :=
  match fuel with
  | O => upd (pl + i - 1) tmp tosort
  | S f =>
      if j <=? n then
        let j := if (j <? n) && less (val tosort (pl + j - 1)) (val tosort (pl + j))
                 then S j else j in
        if less (key tmp) (val tosort (pl + j - 1))
        then sift f (upd (pl + i - 1) (at_ tosort (pl + j - 1)) tosort)
                  pl n tmp j (j + j)
        else upd (pl + i - 1) tmp tosort
      else upd (pl + i - 1) tmp tosort
  end.

Definition heapify (tosort : list nat) (pl n : nat) : list nat :=
  fold_left (fun tosort l => sift n tosort pl n (at_ tosort (pl + l - 1)) l (l + l))
            (rev (seq 1 (n / 2))) tosort.

Definition aheapsort (tosort : list nat) (pl n : nat) : list nat :=
  fold_left (fun tosort m =>
               let tmp := at_ tosort (pl + m - 1) in
               let tosort := upd (pl + m - 1) (at_ tosort pl) tosort in
               sift m tosort pl (m - 1) tmp 1 2)
            (rev (seq 2 (n - 1))) (heapify tosort pl n).

(** The driver.  [check] is set on the iterations of the outer loop, where
    the depth budget is tested; the stack holds the postponed partitions
    with the budget they were pushed with. *)
Fixpoint aquicksort_loop (fuel : nat) (check : bool) (tosort : list nat)
         (pl pr : nat) (cdepth : Z) (stack : list (nat * nat * Z)) : list nat :=
  match fuel with
  | O => tosort
  | S f =>
      if check && (cdepth <? 0)%Z then
        let tosort := aheapsort tosort pl (pr - pl + 1) in
        match stack with
        | [] => tosort
        | (l, r, d) :: stack => aquicksort_loop f true tosort l r d stack
        end
      else if 16 <? pr - pl then
        let '(tosort, pi) := partition tosort pl pr in
        let cdepth := (cdepth - 1)%Z in
        if pi - pl <? pr - pi
        then aquicksort_loop f false tosort pl (pi - 1) cdepth
                             ((S pi, pr, cdepth) :: stack)
        else aquicksort_loop f false tosort (S pi) pr cdepth
                             ((pl, pi - 1, cdepth) :: stack)
      else
        let tosort := insertion tosort pl pr in
        match stack with
        | [] => tosort
        | (l, r, d) :: stack => aquicksort_loop f true tosort l r d stack
        end
  end.

(** [npy_get_msb(num) * 2] is the depth budget. *)
Definition argsort_quicksort : list nat :=
  let num := length v in
  aquicksort_loop (2 * num + 2) true (seq 0 num) 0 (num - 1)
                  (2 * Z.log2 (Z.of_nat num)) [].

End Argsort.

End Numpy.

(** ** The state of the process

    What the script can read or change besides its arguments: the lines
    printed, the directories and files of the file system, and pyplot's
    registry of open figures.  Directories and files are named by their
    paths from the working directory, each written in one way only:
    names separated by single slashes, with no slash at either end. *)

(** A tick label of a bar chart: a sentiment label or a rating. *)
Inductive Label : Type :=
| LStr (s : string)
| LNum (z : Z).

Record Figure := mkFigure {
  fig_size : nat * nat;
  fig_bars : list (Label * nat);
  fig_color : string;
  fig_title : string;
  fig_xlabel : string;
  fig_ylabel : string;
  fig_tight : bool
}.

Record World := mkWorld {
  stdout : list string;
  directories : list string;
  files : list (string * string);
  figures : list (nat * Figure)
}.

Definition IO (A : Type) : Type := World -> A * World.

Definition ret {A : Type} (x : A) : IO A := fun w => (x, w).

Definition bind {A B : Type} (m : IO A) (k : A -> IO B) : IO B :=
  fun w => let '(x, w') := m w in k x w'.

Notation "x <- m ;; k" := (bind m (fun x => k))
  (at level 61, m at next level, right associativity).
Notation "m ;; k" := (bind m (fun _ => k))
  (at level 61, right associativity).
Notation "a +++ b" := (String.append a b)
  (at level 60, right associativity).

(** [print(line)]. *)
Definition print (line : string) : IO unit :=
  fun w => (tt, mkWorld (stdout w ++ [line]) (directories w) (files w) (figures w)).

Module Os.

(** [os.path.join(a, b)] for a relative [b]. *)
Definition path_join (a b : string) : string :=
  if String.eqb a "" then b
  else if String.eqb (substring (String.length a - 1) 1 a) "/" then a +++ b
  else a +++ "/" +++ b.

(** [os.path.exists(path)], for a path written as the file system
    names it here. *)
Definition path_exists (path : string) : IO bool :=
  fun w => (existsb (String.eqb path) (directories w)
            || existsb (String.eqb path) (map fst (files w)), w).

(** [os.makedirs(path)] where it succeeds by making one directory: the
    path is not there and the directory above it is.  The script calls
    it so on an output directory named by a plain name (see [usable]);
    the failures of the call and the directories it makes above a
    nested path are not part of this model. *)
Definition makedirs (path : string) : IO unit :=
  fun w => (tt, mkWorld (stdout w) (directories w ++ [path]) (files w) (figures w)).

(** [with open(path, 'w') as f: f.write(content)] where it succeeds: the
    directory of the file is there and the path is no directory. *)
Definition write_file (path content : string) : IO unit :=
  fun w => (tt, mkWorld (stdout w) (directories w)
                        (filter (fun e => negb (String.eqb (fst e) path)) (files w)
                         ++ [(path, content)])
                        (figures w)).

End Os.

Module Pyplot.

Definition set_figures (figs : list (nat * Figure)) (w : World) : World :=
  mkWorld (stdout w) (directories w) (files w) figs.

(** A new figure gets the number after the largest one in use. *)
Definition next_num (figs : list (nat * Figure)) : nat :=
  S (fold_right Nat.max 0 (map fst figs)).

(** [plt.subplots(figsize=...)]: opens a figure, which becomes the current
    one (the last of the registry); the figure and its axes are named by
    the figure number. *)
Definition subplots (figsize : nat * nat) : IO nat :=
  fun w =>
    let num := next_num (figures w) in
    (num, set_figures (figures w ++ [(num, mkFigure figsize [] "" "" "" "" false)]) w).

Fixpoint update (num : nat) (f : Figure -> Figure) (figs : list (nat * Figure))
  : list (nat * Figure) :=
  match figs with
  | [] => []
  | (n, fig) :: t => if n =? num then (n, f fig) :: t else (n, fig) :: update num f t
  end.

Fixpoint update_current (f : Figure -> Figure) (figs : list (nat * Figure))
  : list (nat * Figure) :=
  match figs with
  | [] => []
  | [(n, fig)] => [(n, f fig)]
  | e :: t => e :: update_current f t
  end.

(** [series.plot(kind='bar', ax=ax, color=...)] draws into the given
    axes.  The drawing library is no part of the script: the call is
    taken to return for every series, also for one with no bar at all
    (the sentiment counts of a category in which every label is
    missing). *)
Definition plot_bar (ax : nat) (bars : list (Label * nat)) (color : string) : IO unit :=
  fun w =>
    (tt, set_figures
           (update ax (fun g => mkFigure (fig_size g) bars color (fig_title g)
                                         (fig_xlabel g) (fig_ylabel g) (fig_tight g))
                   (figures w)) w).

(** [plt.title], [plt.xlabel], [plt.ylabel] and [plt.tight_layout] act on
    the current figure. *)
Definition title (s : string) : IO unit :=
  fun w =>
    (tt, set_figures
           (update_current (fun g => mkFigure (fig_size g) (fig_bars g) (fig_color g) s
                                              (fig_xlabel g) (fig_ylabel g) (fig_tight g))
                           (figures w)) w).

Definition xlabel (s : string) : IO unit :=
  fun w =>
    (tt, set_figures
           (update_current (fun g => mkFigure (fig_size g) (fig_bars g) (fig_color g)
                                              (fig_title g) s (fig_ylabel g) (fig_tight g))
                           (figures w)) w).

Definition ylabel (s : string) : IO unit :=
  fun w =>
    (tt, set_figures
           (update_current (fun g => mkFigure (fig_size g) (fig_bars g) (fig_color g)
                                              (fig_title g) (fig_xlabel g) s (fig_tight g))
                           (figures w)) w).

Definition tight_layout : IO unit :=
  fun w =>
    (tt, set_figures
           (update_current (fun g => mkFigure (fig_size g) (fig_bars g) (fig_color g)
                                              (fig_title g) (fig_xlabel g) (fig_ylabel g) true)
                           (figures w)) w).

Fixpoint lookup (num : nat) (figs : list (nat * Figure)) : option Figure :=
  match figs with
  | [] => None
  | (n, fig) :: t => if n =? num then Some fig else lookup num t
  end.

(** [plt.close(fig)]. *)
Definition close (fig : nat) : IO unit :=
  fun w => (tt, set_figures (filter (fun e => negb (fst e =? fig)) (figures w)) w).

End Pyplot.

(** ** The script *)

Record TopProduct := mkTopProduct {
  tp_name : string;
  tp_rating : Q;
  positive_summaries : list string
}.

Record WorstProduct := mkWorstProduct {
  wp_name : string;
  wp_rating : Q;
  improvement_summaries : list string
}.

(** The dictionary [analyze_category_data] returns. *)
Record Report := mkReport {
  category : option string;
  product_count : nat;
  review_count : nat;
  avg_rating : Q;
  top_products : list TopProduct;
  worst_product : option WorstProduct;
  sentiment_chart : string;
  rating_chart : string;
  image_url : string
}.

(** The command line, as [parse_arguments] returns it. *)
Record Args := mkArgs {
  input : string;
  output_dir : string;
  title : string
}.

(** What [pd.read_csv] loaded: the column names, and the rows as seen
    through the five columns the analysis reads (looked at only once all
    five are known to be there). *)
Record Csv := mkCsv {
  columns : list string;
  records : DataFrame
}.

Definition DEFAULT_CATEGORY_IMAGES : list (string * string) :=
  [ ("Accessories",
     "https://images-na.ssl-images-amazon.com/images/G/01/AmazonBasics/landing/electronics._CB485921693_.jpg");
    ("Tablets & Entertainment",
     "https://images-na.ssl-images-amazon.com/images/G/01/kindle/journeys/YTNiNWIyZTgt/YTNiNWIyZTgt-ZjZmMzY2Yjct-w1500._CB417267304_.jpg");
    ("Smart Home & Speakers",
     "https://images-na.ssl-images-amazon.com/images/G/01/kindle/journeys/Nzg3NzIxZDct/Nzg3NzIxZDct-YzA3MzI3Yjgt-w1500._CB418667506_.jpg");
    ("E-readers",
     "https://images-na.ssl-images-amazon.com/images/G/01/kindle/journeys/Yzg5NWM0MDQt/Yzg5NWM0MDQt-YTJmMDQzMWIt-w1500._CB418667506_.jpg") ].

(** [d.get(k, default)]. *)
Fixpoint dict_get (d : list (string * string)) (k default : string) : string :=
  match d with
  | [] => default
  | (k', x) :: t => if String.eqb k' k then x else dict_get t k default
  end.

(** How an f-string shows a cell: a missing one reads [nan]. *)
Definition str (cell : option string) : string :=
  match cell with
  | Some s => s
  | None => "nan"
  end.

Definition required_columns : list string :=
  ["name"; "product_category"; "reviews.rating"; "rating_sentiment"; "chatgpt_summary"].

Section Script.

(** The sorting routine of numpy (see [Pandas.argsort]). *)
Variable argsort : list Q -> list nat.

(** [savefig] to PNG followed by base64: the picture of a figure. *)
Variable png_base64 : Figure -> string.

(** The style sheet, the script and the jinja2 template are constants of
    the source; the template is rendered by jinja2. *)
Variable css_content : string.
Variable js_content : string.
Variable render_template : string -> list Report -> string.

(** [fig_to_base64(fig)]. *)
Definition fig_to_base64 (fig : nat) : IO string :=
  fun w =>
    (match Pyplot.lookup fig (figures w) with
     | Some g => png_base64 g
     | None => ""
     end, w).

(** [df[df['product_category'] == category].copy()]. *)
Definition category_rows (df : DataFrame) (category : option string) : DataFrame :=
  filter (fun r => Pandas.eq (product_category r) category) df.

(** The summaries both loops collect for a product: its reviews with the
    given sentiment, their summaries without the missing ones, cut at 5. *)
Definition sentiment_summaries (category_df : DataFrame)
           (product_name sentiment : string) : list string :=
  let product_reviews :=
    filter (fun r => Pandas.eq (name r) (Some product_name)) category_df in
  let sentiment_reviews :=
    filter (fun r => Pandas.eq (rating_sentiment r) (Some sentiment)) product_reviews in
  if 0 <? length sentiment_reviews
  then firstn 5 (Pandas.dropna (map chatgpt_summary sentiment_reviews))
  else [].

Definition product_ratings (category_df : DataFrame) : list ProductRating :=
  Pandas.groupby_name_mean category_df.

(** [category_df['rating_sentiment'].value_counts()]. *)
Definition sentiment_counts (category_df : DataFrame) : list (string * nat) :=
  Pandas.value_counts argsort String.eqb (map rating_sentiment category_df).

(** [category_df['reviews.rating'].value_counts().sort_index()]. *)
Definition rating_counts (category_df : DataFrame) : list (Z * nat) :=
  Pandas.sort_index argsort
    (Pandas.value_counts argsort Z.eqb
       (map (fun r => Some (reviews_rating r)) category_df)).

(** The best three products by mean rating, each with its positive
    summaries (the first loop of the function). *)
Definition top_products_data (category_df : DataFrame) : list TopProduct :=
  let product_ratings := product_ratings category_df in
  let top_products :=
    Pandas.head 3 (Pandas.sort_values argsort pr_rating false product_ratings) in
  map (fun product =>
         mkTopProduct (pr_name product) (pr_rating product)
                      (sentiment_summaries category_df (pr_name product) "Positive"))
      top_products.

(** The worst product with its negative summaries; [None] when the frame
    of the worst product is empty, which it is when no row of the
    category has a product name. *)
Definition worst_product_data (category_df : DataFrame) : option WorstProduct :=
  let product_ratings := product_ratings category_df in
  let worst_product :=
    Pandas.head 1 (Pandas.sort_values argsort pr_rating true product_ratings) in
  match worst_product with
  | [] => None
  | worst :: _ =>
      Some (mkWorstProduct (pr_name worst) (pr_rating worst)
                           (sentiment_summaries category_df (pr_name worst) "Negative"))
  end.

Definition analyze_category_data (df : DataFrame) (category : option string)
  : IO (option Report) :=
  let category_df := category_rows df category in
  if length category_df =? 0 then ret None
  else
    let top_products_data := top_products_data category_df in
    let worst_product_data := worst_product_data category_df in
    let sentiment_counts := sentiment_counts category_df in
    fig <- Pyplot.subplots (8, 5) ;;
    Pyplot.plot_bar fig (map (fun e => (LStr (fst e), snd e)) sentiment_counts)
                    "viridis" ;;
    Pyplot.title ("Sentiment Distribution - " +++ str category) ;;
    Pyplot.xlabel "Sentiment" ;;
    Pyplot.ylabel "Count" ;;
    Pyplot.tight_layout ;;
    sentiment_chart <- fig_to_base64 fig ;;
    Pyplot.close fig ;;
    fig <- Pyplot.subplots (8, 5) ;;
    Pyplot.plot_bar fig (map (fun e => (LNum (fst e), snd e)) (rating_counts category_df))
                    "skyblue" ;;
    Pyplot.title ("Rating Distribution - " +++ str category) ;;
    Pyplot.xlabel "Rating" ;;
    Pyplot.ylabel "Count" ;;
    Pyplot.tight_layout ;;
    rating_chart <- fig_to_base64 fig ;;
    Pyplot.close fig ;;
    ret (Some (mkReport
                 category
                 (length (Pandas.unique Pandas.same (map name category_df)))
                 (length category_df)
                 (Pandas.mean (map reviews_rating category_df))
                 top_products_data
                 worst_product_data
                 sentiment_chart
                 rating_chart
                 (match category with
                  | Some key => dict_get DEFAULT_CATEGORY_IMAGES key ""
                  | None => ""
                  end))).

(** [create_output_directory]. *)
Definition make_if_missing (dir : string) (announce : option string) : IO unit :=
  known <- Os.path_exists dir ;;
  if known then ret tt
  else
    Os.makedirs dir ;;
    match announce with
    | Some line => print line
    | None => ret tt
    end.

Definition create_output_directory (output_dir : string)
  : IO (string * string * string * string) :=
  make_if_missing output_dir (Some ("Created output directory: " +++ output_dir)) ;;
  let assets_dir := Os.path_join output_dir "assets" in
  make_if_missing assets_dir (Some ("Created assets directory: " +++ assets_dir)) ;;
  let css_dir := Os.path_join assets_dir "css" in
  make_if_missing css_dir None ;;
  let js_dir := Os.path_join assets_dir "js" in
  make_if_missing js_dir None ;;
  let img_dir := Os.path_join assets_dir "img" in
  make_if_missing img_dir None ;;
  ret (assets_dir, css_dir, js_dir, img_dir).

Definition create_css_file (css_dir : string) : IO unit :=
  Os.write_file (Os.path_join css_dir "style.css") css_content.

Definition create_js_file (js_dir : string) : IO unit :=
  Os.write_file (Os.path_join js_dir "script.js") js_content.

(** The loop over the categories; a report is kept when the analysis
    returned one. *)
Fixpoint analyze_categories (df : DataFrame) (categories : list (option string))
         (category_data : list Report) : IO (list Report) :=
  match categories with
  | [] => ret category_data
  | category :: rest =>
      data <- analyze_category_data df category ;;
      match data with
      | Some report => analyze_categories df rest (category_data ++ [report])
      | None => analyze_categories df rest category_data
      end
  end.

Definition generate_html_report (df : DataFrame) (output_dir title : string)
  : IO unit :=
  dirs <- create_output_directory output_dir ;;
  let '(assets_dir, css_dir, js_dir, img_dir) := dirs in
  create_css_file css_dir ;;
  create_js_file js_dir ;;
  let categories := Pandas.unique Pandas.same (map product_category df) in
  category_data <- analyze_categories df categories [] ;;
  let html_content := render_template title category_data in
  Os.write_file (Os.path_join output_dir "index.html") html_content ;;
  print ("HTML report generated successfully at "
         +++ Os.path_join output_dir "index.html").

(** [main], from the parsed arguments and the loaded table on. *)
Definition main (args : Args) (df : Csv) : IO unit :=
  print ("Loading data from " +++ input args +++ "...") ;;
  let missing_columns :=
    filter (fun col => negb (existsb (String.eqb col) (columns df)))
           required_columns in
  match missing_columns with
  | _ :: _ =>
      print ("Error: Missing required columns: " +++ String.concat ", " missing_columns) ;;
      print "Please make sure your input CSV contains these columns." ;;
      ret tt
  | [] =>
      print ("Generating HTML report with title: " +++ title args) ;;
      generate_html_report (records df) (output_dir args) (title args) ;;
      print "Done!"
  end.

End Script.

(** ** What the claims speak about *)

(** What numpy promises of [argsort] whatever the [kind]: the result is
    an arrangement of the positions [0 .. n-1] along which the keys do not
    decrease. *)
Definition argsort_contract (argsort : list Q -> list nat) : Prop :=
  forall keys : list Q,
    Permutation (argsort keys) (seq 0 (length keys)) /\
    StronglySorted Qle (Pandas.take keys (argsort keys)).

(** The two figures at the moment they are saved. *)
Definition sentiment_figure (argsort : list Q -> list nat)
           (category_df : DataFrame) (category : option string) : Figure :=
  mkFigure (8, 5)
           (map (fun e => (LStr (fst e), snd e)) (sentiment_counts argsort category_df))
           "viridis" ("Sentiment Distribution - " +++ str category)
           "Sentiment" "Count" true.

Definition rating_figure (argsort : list Q -> list nat)
           (category_df : DataFrame) (category : option string) : Figure :=
  mkFigure (8, 5)
           (map (fun e => (LNum (fst e), snd e)) (rating_counts argsort category_df))
           "skyblue" ("Rating Distribution - " +++ str category)
           "Rating" "Count" true.

(** The value the analysis returns, read off without the process state. *)
Definition category_report (argsort : list Q -> list nat)
           (png_base64 : Figure -> string)
           (df : DataFrame) (category : option string) : option Report :=
  let category_df := category_rows df category in
  if length category_df =? 0 then None
  else Some (mkReport
               category
               (length (Pandas.unique Pandas.same (map name category_df)))
               (length category_df)
               (Pandas.mean (map reviews_rating category_df))
               (top_products_data argsort category_df)
               (worst_product_data argsort category_df)
               (png_base64 (sentiment_figure argsort category_df category))
               (png_base64 (rating_figure argsort category_df category))
               (match category with
                | Some key => dict_get DEFAULT_CATEGORY_IMAGES key ""
                | None => ""
                end)).

(** The cell holds the text [s]. *)
Definition holds (s : string) (cell : option string) : bool :=
  match cell with
  | Some text => String.eqb text s
  | None => false
  end.


(** The rows of a product within a category, and its mean rating there. *)
Definition product_rows (df : DataFrame) (c product : string) : DataFrame :=
  filter (fun r => holds c (product_category r) && holds product (name r)) df.

Definition product_mean (df : DataFrame) (c product : string) : Q :=
  Pandas.mean (map reviews_rating (product_rows df c product)).

(** The distinct product names of a category; a row without a name adds
    none. *)
Definition distinct_names (df : DataFrame) (c : string) : list string :=
  nodup string_dec
        (flat_map (fun r => if holds c (product_category r)
                            then match name r with
                                 | Some product => [product]
                                 | None => []
                                 end
                            else [])
                  df).

(** Some row of the category names a product. *)
Definition has_product (df : DataFrame) (c : string) : Prop :=
  exists r product,
    In r df /\ product_category r = Some c /\ name r = Some product.

(** The cell holds a value. *)
Definition present {A : Type} (cell : option A) : bool :=
  match cell with
  | Some _ => true
  | None => false
  end.



(** Some row of the category lacks the name of its product. *)
Definition lacks_name (df : DataFrame) (c : string) : bool :=
  existsb (fun r => holds c (product_category r)
                    && match name r with Some _ => false | None => true end) df.

(** The summaries of a product's reviews of one sentiment, in the order
    of the table, the missing ones left out. *)
Fixpoint summaries_in_table_order (df : DataFrame) (c product sentiment : string)
  : list string :=
  match df with
  | [] => []
  | r :: t =>
      let rest := summaries_in_table_order t c product sentiment in
      if holds c (product_category r) && holds product (name r)
         && holds sentiment (rating_sentiment r)
      then match chatgpt_summary r with
           | Some s => s :: rest
           | None => rest
           end
      else rest
  end.

(** What the claim on the summaries asks of the list kept for a product:
    it is the first five entries of the list above, hence has at most five
    entries, each the summary of a review of that product with that
    sentiment, and none when the product has no such review. *)
Definition excerpts (df : DataFrame) (c product sentiment : string)
           (l : list string) : Prop :=
  l = firstn 5 (summaries_in_table_order df c product sentiment) /\
  length l <= 5 /\
  (forall s, In s l ->
             exists r, In r df /\ product_category r = Some c /\
                       name r = Some product /\
                       rating_sentiment r = Some sentiment /\
                       chatgpt_summary r = Some s) /\
  ((forall r, In r df ->
              ~ (product_category r = Some c /\ name r = Some product /\
                 rating_sentiment r = Some sentiment)) ->
   l = []).

(** Positions compared by the keys they point at. *)
Definition le_key (v : list Q) (i j : nat) : Prop :=
  (Numpy.key v i <= Numpy.key v j)%Q.

(** Sum of the counts of a distribution. *)
Definition total {K : Type} (distribution : list (K * nat)) : nat :=
  fold_right (fun e n => snd e + n) 0 distribution.





(** The lines [main] prints when columns are missing. *)
Definition missing_columns_report (args : Args) (missing : list string)
  : list string :=
  [ "Loading data from " +++ input args +++ "...";
    "Error: Missing required columns: " +++ String.concat ", " missing;
    "Please make sure your input CSV contains these columns." ].

(** ** What the proofs about the sorting routines speak about *)

(** [t'] is [t] with the indices at the positions [a .. b] rearranged by
    exchanges. *)
Inductive rearranged (a b : nat) : list nat -> list nat -> Prop :=
| rearranged_refl : forall t, rearranged a b t t
| rearranged_swap : forall t t' p q,
    rearranged a b t t' -> a <= p <= b -> a <= q <= b -> b < length t' ->
    rearranged a b t (Numpy.swap t' p q).

(** The keys do not decrease along the positions [a .. b] of [t]. *)
Definition sorted_segment (v : list Q) (t : list nat) (a b : nat) : Prop :=
  forall i j, a <= i -> i <= j -> j <= b ->
              (Numpy.val v t i <= Numpy.val v t j)%Q.

(** The positions [pl .. pi] of [g] are sorted but for the index at [pj],
    whose key is not above the keys behind it. *)
Definition almost_sorted (v : list Q) (g : list nat) (pl pi pj : nat) : Prop :=
  (forall i j, pl <= i -> i < j -> j <= pi -> i <> pj -> j <> pj ->
               (Numpy.val v g i <= Numpy.val v g j)%Q) /\
  (forall r, pj < r -> r <= pi -> (Numpy.val v g pj <= Numpy.val v g r)%Q).

(** The heap laid out from position [pl] on: node [k] sits at position
    [pl + k - 1] and its children are the nodes [2k] and [2k + 1].  Node
    [k] dominates its children among the first [n] nodes. *)
Definition dominates (v : list Q) (t : list nat) (pl n k : nat) : Prop :=
  forall c, c = 2 * k \/ c = 2 * k + 1 -> c <= n ->
            (Numpy.val v t (pl + c - 1) <= Numpy.val v t (pl + k - 1))%Q.

(** The nodes [lo .. n] dominate their children. *)
Definition heap_from (v : list Q) (t : list nat) (pl n lo : nat) : Prop :=
  forall k, lo <= k -> k <= n -> dominates v t pl n k.

(** The same but for node [i], whose children are however dominated by
    its parent. *)
Definition heap_but (v : list Q) (g : list nat) (pl n lo i : nat) : Prop :=
  (forall k, lo <= k -> k <= n -> k <> i -> dominates v g pl n k) /\
  (forall p c, lo <= p -> i = 2 * p \/ i = 2 * p + 1 ->
               c = 2 * i \/ c = 2 * i + 1 -> c <= n ->
               (Numpy.val v g (pl + c - 1) <= Numpy.val v g (pl + p - 1))%Q).

(** The state of the heap sort between two extractions: the first [m]
    nodes form a heap, the positions behind them are sorted, and no key of
    the heap is above a key behind it. *)
Definition heap_and_sorted (v : list Q) (t : list nat) (pl n m : nat) : Prop :=
  heap_from v t pl m 1 /\
  sorted_segment v t (pl + m) (pl + n - 1) /\
  (forall k r, 1 <= k -> k <= m -> m < r -> r <= n ->
               (Numpy.val v t (pl + k - 1) <= Numpy.val v t (pl + r - 1))%Q).

(** The partitions the quicksort still has to sort: the current one and
    those on its stack. *)
Definition segments (pl pr : nat) (stack : list (nat * nat * Z))
  : list (nat * nat) :=
  (pl, pr) :: map fst stack.

(** They lie within the array and apart from each other. *)
Definition valid_segments (len : nat) (segs : list (nat * nat)) : Prop :=
  Forall (fun s => fst s <= snd s /\ snd s < len) segs /\
  ForallOrdPairs (fun s s' => snd s < fst s' \/ snd s' < fst s) segs.

(** Two positions are in order unless one partition holds both. *)
Definition ordered_outside (v : list Q) (t : list nat) (segs : list (nat * nat))
  : Prop :=
  forall i j, i < j -> j < length t ->
              (Numpy.val v t i <= Numpy.val v t j)%Q \/
              Exists (fun s => fst s <= i /\ j <= snd s) segs.

(** A bound on the iterations left. *)
Definition iterations (segs : list (nat * nat)) : nat :=
  fold_right (fun s n => 2 * (snd s - fst s) + 1 + n) 0 segs.

(** ** What the further properties speak about *)

(** Number of rows of a category that pass a test. *)
Definition rows_where (p : Row -> bool) (df : DataFrame) (c : string) : nat :=
  length (filter (fun r => holds c (product_category r) && p r) df).

(** A distribution listed by descending count. *)
Definition descending_counts {K : Type} (distribution : list (K * nat)) : Prop :=
  StronglySorted (fun a b => snd b <= snd a) distribution.

(** The path is a directory of the file system. *)
Definition is_directory (path : string) (w : World) : Prop :=
  In path (directories w).

(** The path is a file of the file system. *)
Definition is_file (path : string) (w : World) : Prop :=
  In path (map fst (files w)).


(** The directories of a report: the output directory, [assets] in it,
    and [css], [js] and [img] in [assets]. *)
Definition assets_of (output_dir : string) : string :=
  Os.path_join output_dir "assets".

Definition report_directories (output_dir : string) : list string :=
  [ output_dir;
    assets_of output_dir;
    Os.path_join (assets_of output_dir) "css";
    Os.path_join (assets_of output_dir) "js";
    Os.path_join (assets_of output_dir) "img" ].

(** The three files of a report. *)
Definition style_path (output_dir : string) : string :=
  Os.path_join (Os.path_join (assets_of output_dir) "css") "style.css".

Definition script_path (output_dir : string) : string :=
  Os.path_join (Os.path_join (assets_of output_dir) "js") "script.js".

Definition index_path (output_dir : string) : string :=
  Os.path_join output_dir "index.html".




(** The text has the character in it. *)
Fixpoint has_character (a : ascii) (s : string) : bool :=
  match s with
  | EmptyString => false
  | String b t => Ascii.eqb a b || has_character a t
  end.

(** The name of a directory of the working directory: one name, without
    a slash and without the null character (which no path may hold), and
    not one of the two dot names.  The default [report] of the command
    line is one. *)
Definition plain_name (output_dir : string) : Prop :=
  output_dir <> "" /\ output_dir <> "." /\ output_dir <> ".." /\
  has_character "/" output_dir = false /\
  has_character Ascii.zero output_dir = false.




(** The lines [create_output_directory] prints: one for the output
    directory and one for [assets], each when it was not there. *)
Definition created_lines (output_dir : string) (w : World) : list string :=
  (if fst (Os.path_exists output_dir w) then []
   else ["Created output directory: " +++ output_dir])
  ++ (if fst (Os.path_exists (assets_of output_dir) w) then []
      else ["Created assets directory: " +++ assets_of output_dir]).

(** ** Sample inputs *)

Definition review (product category : string) (rating : Z) (sentiment : string)
           (summary : option string) : Row :=
  mkRow (Some product) (Some category) rating (Some sentiment) summary.

(** The scenario of the specification: product A with ratings 5, 5, 4,
    product B with ratings 2, 1; a review of another category in between. *)
Definition accessories : DataFrame :=
  [ review "A" "Accessories" 5 "Positive" (Some "great");
    review "B" "Accessories" 2 "Negative" (Some "bad");
    review "A" "Accessories" 5 "Positive" None;
    review "C" "E-readers" 3 "Neutral" (Some "fine");
    review "A" "Accessories" 4 "Positive" (Some "good");
    review "B" "Accessories" 1 "Negative" (Some "awful") ].

(** Eighteen products with one review each; the last three in the order
    of the names share the best rating. *)
Definition eighteen_products : DataFrame :=
  map (fun product => review product "Accessories" 1 "Neutral" None)
      [ "p01"; "p02"; "p03"; "p04"; "p05"; "p06"; "p07"; "p08"; "p09"; "p10";
        "p11"; "p12"; "p13"; "p14"; "p15" ]
  ++ map (fun product => review product "Accessories" 5 "Positive" None)
         [ "p16"; "p17"; "p18" ].

(** A process that has printed nothing and holds no figure. *)
Definition idle : World := mkWorld [] [] [] [].

(** A stand-in for the PNG encoder: a figure is shown by its title. *)
Definition caption (g : Figure) : string := fig_title g.

(** A table without ratings and summaries. *)
Definition two_columns : Csv := mkCsv ["name"; "product_category"] [].

Definition command_line : Args := mkArgs "reviews.csv" "report" "Amazon Product Analysis".


(** Two reviews of the same category that name no product; the second
    has no sentiment either. *)
Definition unnamed : DataFrame :=
  [ mkRow None (Some "Accessories") 5 (Some "Positive") (Some "great");
    mkRow None (Some "Accessories") 1 None None ].

(** A file system that holds an older report. *)
Definition used : World :=
  mkWorld [] ["report"; "report/assets"] [("report/index.html", "old")] [].

(** * Properties *)

(** ** Positional indexing *)

Lemma take_nil {A : Type} (frame : list A) : Pandas.take frame [] = [].
Proof. reflexivity. Qed.

Lemma take_cons {A : Type} (frame : list A) (i : nat) (p : list nat) :
  Pandas.take frame (i :: p) =
  match nth_error frame i with Some x => [x] | None => [] end
    ++ Pandas.take frame p.
Proof. reflexivity. Qed.

Lemma take_app {A : Type} (frame : list A) (p q : list nat) :
  Pandas.take frame (p ++ q) = Pandas.take frame p ++ Pandas.take frame q.
Proof. unfold Pandas.take. apply flat_map_app. Qed.

Lemma take_rev {A : Type} (frame : list A) (p : list nat) :
  Pandas.take frame (rev p) = rev (Pandas.take frame p).
Proof.
  induction p as [|i p IH]; [reflexivity|].
  rewrite take_cons, rev_app_distr, <- IH.
  change (rev (i :: p)) with (rev p ++ [i]).
  rewrite take_app, (take_cons frame i []), take_nil, app_nil_r.
  destruct (nth_error frame i); reflexivity.
Qed.

Lemma take_map {A B : Type} (f : A -> B) (frame : list A) (p : list nat) :
  Pandas.take (map f frame) p = map f (Pandas.take frame p).
Proof.
  induction p as [|i p IH]; [reflexivity|].
  rewrite !take_cons, map_app, IH, nth_error_map.
  destruct (nth_error frame i); reflexivity.
Qed.

Lemma take_seq (n : nat) (p : list nat) :
  Forall (fun i => i < n) p -> Pandas.take (seq 0 n) p = p.
Proof.
  induction 1 as [|i p Hi _ IH]; [reflexivity|].
  rewrite take_cons, IH, nth_error_seq.
  apply Nat.ltb_lt in Hi. rewrite Hi. reflexivity.
Qed.

Lemma take_mirror {A : Type} (frame : list A) (p : list nat) :
  Forall (fun i => i < length frame) p ->
  Pandas.take frame (Pandas.take (rev (seq 0 (length frame))) p) =
  Pandas.take (rev frame) p.
Proof.
  induction 1 as [|i p Hi _ IH]; [reflexivity|].
  rewrite (take_cons (rev (seq _ _))), take_app, IH, (take_cons (rev frame)).
  f_equal.
  rewrite !nth_error_rev, length_seq, nth_error_seq.
  pose proof Hi as Hi'. apply Nat.ltb_lt in Hi'. rewrite Hi'.
  assert (Hlt : length frame - S i < length frame) by lia.
  apply Nat.ltb_lt in Hlt. rewrite Hlt. simpl.
  rewrite app_nil_r. reflexivity.
Qed.

Lemma take_suffix {A : Type} (frame before : list A) :
  Pandas.take (before ++ frame) (seq (length before) (length frame)) = frame.
Proof.
  revert before. induction frame as [|x frame IH]; intros before; [reflexivity|].
  simpl seq. rewrite take_cons, nth_error_app2, Nat.sub_diag by lia. simpl.
  f_equal. specialize (IH (before ++ [x])).
  rewrite <- app_assoc, length_app, Nat.add_comm in IH. exact IH.
Qed.

Lemma take_all {A : Type} (frame : list A) :
  Pandas.take frame (seq 0 (length frame)) = frame.
Proof. exact (take_suffix frame []). Qed.

Lemma take_permutation {A : Type} (frame : list A) (p : list nat) :
  Permutation p (seq 0 (length frame)) ->
  Permutation (Pandas.take frame p) frame.
Proof.
  intros Hp. rewrite <- (take_all frame) at 2.
  unfold Pandas.take. apply Permutation_flat_map. exact Hp.
Qed.

Lemma permutation_in_range (n : nat) (p : list nat) :
  Permutation p (seq 0 n) -> Forall (fun i => i < n) p.
Proof.
  intros Hp. apply Forall_forall. intros i Hi.
  apply (Permutation_in _ Hp) in Hi. apply in_seq in Hi. lia.
Qed.

(** ** Sorted lists *)

Lemma StronglySorted_app {A : Type} (R : A -> A -> Prop) (l1 l2 : list A) :
  StronglySorted R l1 -> StronglySorted R l2 ->
  (forall x y, In x l1 -> In y l2 -> R x y) ->
  StronglySorted R (l1 ++ l2).
Proof.
  induction 1 as [|a l1 Hs IH Ha]; intros H2 Hx; [exact H2|].
  simpl. constructor.
  - apply IH; [exact H2|]. intros x y Hin1 Hin2. apply Hx; [right|]; assumption.
  - apply Forall_app. split; [exact Ha|].
    apply Forall_forall. intros y Hy. apply Hx; [left; reflexivity|exact Hy].
Qed.

Lemma StronglySorted_rev {A : Type} (R : A -> A -> Prop) (l : list A) :
  StronglySorted R l -> StronglySorted (fun a b => R b a) (rev l).
Proof.
  induction 1 as [|a l Hs IH Ha]; [constructor|].
  simpl. apply StronglySorted_app; [exact IH|repeat constructor|].
  intros x y Hx [<-|[]]. apply in_rev in Hx.
  rewrite Forall_forall in Ha. apply Ha. exact Hx.
Qed.

Lemma StronglySorted_map_inv {A B : Type} (R : B -> B -> Prop) (f : A -> B)
      (l : list A) :
  StronglySorted R (map f l) -> StronglySorted (fun a b => R (f a) (f b)) l.
Proof.
  induction l as [|a l IH]; intros H; [constructor|].
  simpl in H. apply StronglySorted_inv in H. destruct H as [Hs Ha].
  constructor; [apply IH; exact Hs|].
  rewrite Forall_map in Ha. exact Ha.
Qed.

Lemma StronglySorted_map {A B : Type} (R : B -> B -> Prop) (f : A -> B)
      (l : list A) :
  StronglySorted (fun a b => R (f a) (f b)) l -> StronglySorted R (map f l).
Proof.
  induction 1 as [|a l Hs IH Ha]; [constructor|].
  simpl. constructor; [exact IH|]. rewrite Forall_map. exact Ha.
Qed.

Lemma StronglySorted_weaken {A : Type} (R S : A -> A -> Prop) (l : list A) :
  (forall a b, R a b -> S a b) -> StronglySorted R l -> StronglySorted S l.
Proof.
  intros HRS. induction 1 as [|a l Hs IH Ha]; constructor; [exact IH|].
  eapply Forall_impl; [|exact Ha]. intros b. apply HRS.
Qed.

Lemma in_firstn {A : Type} (n : nat) (l : list A) (x : A) :
  In x (firstn n l) -> In x l.
Proof.
  intros H. rewrite <- (firstn_skipn n l). apply in_or_app. left. exact H.
Qed.


(** ** The sorts of pandas over a routine that keeps its promise *)

Section SortValues.

Variable argsort : list Q -> list nat.
Hypothesis argsort_ok : argsort_contract argsort.

Lemma argsort_in_range (keys : list Q) :
  Forall (fun i => i < length keys) (argsort keys).
Proof. apply permutation_in_range, argsort_ok. Qed.

Lemma sort_values_ascending {A : Type} (by_ : A -> Q) (frame : list A) :
  Pandas.sort_values argsort by_ true frame =
  Pandas.take frame (argsort (map by_ frame)).
Proof.
  unfold Pandas.sort_values, Pandas.nargsort.
  rewrite take_seq by apply argsort_in_range. reflexivity.
Qed.

Lemma sort_values_descending {A : Type} (by_ : A -> Q) (frame : list A) :
  Pandas.sort_values argsort by_ false frame =
  rev (Pandas.sort_values argsort by_ true (rev frame)).
Proof.
  rewrite sort_values_ascending.
  unfold Pandas.sort_values, Pandas.nargsort.
  rewrite take_rev, length_map, take_mirror, map_rev; [reflexivity|].
  pose proof (argsort_in_range (rev (map by_ frame))) as H.
  rewrite length_rev, length_map in H. exact H.
Qed.

Lemma sort_values_permutation {A : Type} (by_ : A -> Q) (ascending : bool)
      (frame : list A) :
  Permutation (Pandas.sort_values argsort by_ ascending frame) frame.
Proof.
  assert (Hasc : forall f : list A,
             Permutation (Pandas.sort_values argsort by_ true f) f).
  { intros f. rewrite sort_values_ascending. apply take_permutation.
    rewrite <- (length_map by_ f). apply argsort_ok. }
  destruct ascending; [apply Hasc|].
  rewrite sort_values_descending, <- Permutation_rev, Hasc.
  symmetry. apply Permutation_rev.
Qed.

Lemma sort_values_ascending_sorted {A : Type} (by_ : A -> Q) (frame : list A) :
  StronglySorted (fun a b => (by_ a <= by_ b)%Q)
                 (Pandas.sort_values argsort by_ true frame).
Proof.
  rewrite sort_values_ascending. apply StronglySorted_map_inv.
  rewrite <- take_map. apply argsort_ok.
Qed.

Lemma sort_values_descending_sorted {A : Type} (by_ : A -> Q) (frame : list A) :
  StronglySorted (fun a b => (by_ b <= by_ a)%Q)
                 (Pandas.sort_values argsort by_ false frame).
Proof.
  rewrite sort_values_descending.
  apply (StronglySorted_rev (fun a b => (by_ a <= by_ b)%Q)).
  apply sort_values_ascending_sorted.
Qed.

End SortValues.

(** ** The registry of figures *)

Lemma next_num_above (figs : list (nat * Figure)) :
  Forall (fun e => fst e < Pyplot.next_num figs) figs.
Proof.
  unfold Pyplot.next_num. induction figs as [|[n g] figs IH]; constructor.
  - simpl. lia.
  - simpl. eapply Forall_impl; [|exact IH]. simpl. intros e He. lia.
Qed.

Lemma update_new (figs : list (nat * Figure)) (num : nat) (g : Figure)
      (f : Figure -> Figure) :
  Forall (fun e => fst e < num) figs ->
  Pyplot.update num f (figs ++ [(num, g)]) = figs ++ [(num, f g)].
Proof.
  induction 1 as [|[n g'] l Hn _ IH]; simpl.
  - rewrite Nat.eqb_refl. reflexivity.
  - simpl in Hn. destruct (Nat.eqb_spec n num); [lia|]. rewrite IH. reflexivity.
Qed.

Lemma update_current_new (figs : list (nat * Figure)) (num : nat) (g : Figure)
      (f : Figure -> Figure) :
  Pyplot.update_current f (figs ++ [(num, g)]) = figs ++ [(num, f g)].
Proof.
  induction figs as [|[n g'] l IH]; [reflexivity|].
  change (((n, g') :: l) ++ [(num, g)]) with ((n, g') :: (l ++ [(num, g)])).
  cbn [Pyplot.update_current]. rewrite IH.
  destruct l; reflexivity.
Qed.

Lemma lookup_new (figs : list (nat * Figure)) (num : nat) (g : Figure) :
  Forall (fun e => fst e < num) figs ->
  Pyplot.lookup num (figs ++ [(num, g)]) = Some g.
Proof.
  induction 1 as [|[n g'] l Hn _ IH]; simpl.
  - rewrite Nat.eqb_refl. reflexivity.
  - simpl in Hn. destruct (Nat.eqb_spec n num); [lia|]. exact IH.
Qed.

Lemma close_new (figs : list (nat * Figure)) (num : nat) (g : Figure) :
  Forall (fun e => fst e < num) figs ->
  filter (fun e => negb (fst e =? num)) (figs ++ [(num, g)]) = figs.
Proof.
  induction 1 as [|[n g'] l Hn _ IH]; simpl.
  - rewrite Nat.eqb_refl. reflexivity.
  - simpl in Hn. destruct (Nat.eqb_spec n num); [lia|]. simpl. rewrite IH.
    reflexivity.
Qed.

(** ** The analysis as a function of its arguments *)

Section Analysis.

Variable argsort : list Q -> list nat.
Variable png_base64 : Figure -> string.

(** Drawing a chart: the figure is opened, drawn, saved and closed; what
    remains is its picture, and the process state is as before. *)
Lemma draw_chart {B : Type} (bars : list (Label * nat))
      (color title xlabel ylabel : string) (k : string -> IO B) (w : World) :
  (fig <- Pyplot.subplots (8, 5) ;;
   Pyplot.plot_bar fig bars color ;;
   Pyplot.title title ;;
   Pyplot.xlabel xlabel ;;
   Pyplot.ylabel ylabel ;;
   Pyplot.tight_layout ;;
   chart <- fig_to_base64 png_base64 fig ;;
   Pyplot.close fig ;;
   k chart) w =
  k (png_base64 (mkFigure (8, 5) bars color title xlabel ylabel true)) w.
Proof.
  destruct w as [out dirs fs figs].
  pose proof (next_num_above figs) as Hfresh.
  cbv beta iota zeta delta
      [bind ret Pyplot.subplots Pyplot.plot_bar Pyplot.title Pyplot.xlabel
       Pyplot.ylabel Pyplot.tight_layout Pyplot.close Pyplot.set_figures
       fig_to_base64 figures stdout directories files].
  rewrite (update_new _ _ _ _ Hfresh).
  rewrite !update_current_new.
  rewrite (lookup_new _ _ _ Hfresh), (close_new _ _ _ Hfresh).
  reflexivity.
Qed.

(** The analysis hands the process state back as it found it, and its
    result is the one [category_report] describes. *)
Lemma analyze_category_data_pure (df : DataFrame) (c : option string) (w : World) :
  analyze_category_data argsort png_base64 df c w =
  (category_report argsort png_base64 df c, w).
Proof.
  unfold analyze_category_data, category_report.
  destruct (length (category_rows df c) =? 0); [reflexivity|].
  cbv zeta. rewrite draw_chart, draw_chart. reflexivity.
Qed.

End Analysis.

(** ** Distinct values and their counts *)

Section Unique.

Context {A : Type}.
Variable eqb : A -> A -> bool.
Hypothesis eqb_eq : forall a b, eqb a b = true <-> a = b.

Lemma unique_In (l : list A) (x : A) : In x (Pandas.unique eqb l) <-> In x l.
Proof.
  induction l as [|a l IH]; [reflexivity|].
  simpl. rewrite filter_In, IH. split.
  - intros [H|[H _]]; auto.
  - intros [H|H]; [left; exact H|].
    destruct (eqb a x) eqn:E.
    + left. apply eqb_eq. exact E.
    + right. split; [exact H|reflexivity].
Qed.

Lemma unique_NoDup (l : list A) : NoDup (Pandas.unique eqb l).
Proof.
  induction l as [|a l IH]; simpl; constructor.
  - rewrite filter_In. intros [_ H].
    assert (E : eqb a a = true) by (apply eqb_eq; reflexivity).
    rewrite E in H. discriminate.
  - apply NoDup_filter. exact IH.
Qed.

Lemma filter_twice (p q : A -> bool) (l : list A) :
  filter p (filter q l) = filter (fun x => q x && p x) l.
Proof.
  induction l as [|a l IH]; [reflexivity|].
  simpl. destruct (q a); simpl; [destruct (p a)|]; rewrite IH; reflexivity.
Qed.




Lemma total_cons {K : Type} (e : K * nat) (l : list (K * nat)) :
  total (e :: l) = snd e + total l.
Proof. reflexivity. Qed.




End Unique.

(** ** Cells *)

Lemma holds_eq (s : string) (cell : option string) :
  holds s cell = true <-> cell = Some s.
Proof.
  destruct cell as [text|]; cbn [holds].
  - rewrite String.eqb_eq. split; [intros ->; reflexivity|].
    intros H. injection H as ->. reflexivity.
  - split; discriminate.
Qed.

Lemma eq_holds (cell : option string) (s : string) :
  Pandas.eq cell (Some s) = holds s cell.
Proof. destruct cell; reflexivity. Qed.


Lemma same_eq (a b : option string) : Pandas.same a b = true <-> a = b.
Proof.
  destruct a as [x|], b as [y|]; cbn [Pandas.same];
    try (split; [discriminate|discriminate]); [|split; reflexivity].
  rewrite String.eqb_eq. split; [intros ->; reflexivity|].
  intros H. injection H as ->. reflexivity.
Qed.

Lemma dropna_In {A : Type} (l : list (option A)) (x : A) :
  In x (Pandas.dropna l) <-> In (Some x) l.
Proof.
  unfold Pandas.dropna. rewrite in_flat_map. split.
  - intros [[y|] [Hy Hx]]; [|destruct Hx].
    destruct Hx as [<-|[]]. exact Hy.
  - intros H. exists (Some x). split; [exact H|left; reflexivity].
Qed.



(** ** Rows of a category *)


Lemma category_rows_In (df : DataFrame) (c : string) (r : Row) :
  In r (category_rows df (Some c)) <-> In r df /\ product_category r = Some c.
Proof.
  unfold category_rows. rewrite filter_In, eq_holds, holds_eq. reflexivity.
Qed.

Lemma category_rows_holds (df : DataFrame) (c : string) :
  category_rows df (Some c) = filter (fun r => holds c (product_category r)) df.
Proof. apply filter_ext. intros r. apply eq_holds. Qed.


Lemma category_report_some (argsort : list Q -> list nat)
      (png_base64 : Figure -> string) (df : DataFrame) (c : string) :
  category_rows df (Some c) <> [] ->
  category_report argsort png_base64 df (Some c) =
  Some (mkReport
          (Some c)
          (length (Pandas.unique Pandas.same (map name (category_rows df (Some c)))))
          (length (category_rows df (Some c)))
          (Pandas.mean (map reviews_rating (category_rows df (Some c))))
          (top_products_data argsort (category_rows df (Some c)))
          (worst_product_data argsort (category_rows df (Some c)))
          (png_base64 (sentiment_figure argsort (category_rows df (Some c)) (Some c)))
          (png_base64 (rating_figure argsort (category_rows df (Some c)) (Some c)))
          (dict_get DEFAULT_CATEGORY_IMAGES c "")).
Proof.
  intros H. unfold category_report.
  destruct (category_rows df (Some c)); [contradiction|reflexivity].
Qed.

Lemma category_report_none (argsort : list Q -> list nat)
      (png_base64 : Figure -> string) (df : DataFrame) (c : option string) :
  category_rows df c = [] -> category_report argsort png_base64 df c = None.
Proof. intros H. unfold category_report. rewrite H. reflexivity. Qed.

(** ** Totals and keys of a distribution *)


Lemma total_relabel {K L : Type} (f : K -> L) (l : list (K * nat)) :
  total (map (fun e => (f (fst e), snd e)) l) = total l.
Proof.
  induction l as [|e l IH]; [reflexivity|].
  cbn [map]. rewrite !total_cons, IH. reflexivity.
Qed.


Section Distributions.

Variable argsort : list Q -> list nat.
Hypothesis argsort_ok : argsort_contract argsort.

Lemma value_counts_permutation {A : Type} (eqb : A -> A -> bool)
      (l : list (option A)) :
  Permutation (Pandas.value_counts argsort eqb l)
              (map (fun k => (k, Pandas.count eqb k (Pandas.dropna l)))
                   (Pandas.unique eqb (Pandas.dropna l))).
Proof. apply sort_values_permutation. exact argsort_ok. Qed.


Lemma value_counts_keys {A : Type} (eqb : A -> A -> bool) (l : list (option A)) :
  Permutation (map fst (Pandas.value_counts argsort eqb l))
              (Pandas.unique eqb (Pandas.dropna l)).
Proof.
  rewrite (Permutation_map fst (value_counts_permutation eqb l)).
  rewrite map_map. simpl. rewrite map_id. reflexivity.
Qed.




End Distributions.

(** ** The frame of mean ratings per product *)

Lemma insert_key_permutation (k : string) (l : list string) :
  Permutation (Pandas.insert_key k l) (k :: l).
Proof.
  induction l as [|h t IH]; [reflexivity|].
  simpl. destruct (String.leb k h); [reflexivity|].
  rewrite IH. apply perm_swap.
Qed.

Lemma sort_keys_permutation (l : list string) :
  Permutation (Pandas.sort_keys l) l.
Proof.
  induction l as [|k l IH]; [reflexivity|].
  simpl. rewrite insert_key_permutation, IH. reflexivity.
Qed.

Lemma group_keys_In (frame : DataFrame) (k : string) :
  In k (Pandas.group_keys frame) <-> In (Some k) (map name frame).
Proof.
  unfold Pandas.group_keys. rewrite <- dropna_In. split; intros H.
  - apply (Permutation_in _ (sort_keys_permutation _)) in H.
    exact (proj1 (unique_In _ String.eqb_eq _ _) H).
  - apply (Permutation_in _ (Permutation_sym (sort_keys_permutation _))).
    exact (proj2 (unique_In _ String.eqb_eq _ _) H).
Qed.

Lemma distinct_names_In (df : DataFrame) (c k : string) :
  In k (distinct_names df c) <->
  exists r, In r df /\ product_category r = Some c /\ name r = Some k.
Proof.
  unfold distinct_names. rewrite nodup_In, in_flat_map. split.
  - intros [r [Hr Hk]]. exists r. split; [exact Hr|].
    destruct (holds c (product_category r)) eqn:Ec; [|destruct Hk].
    apply holds_eq in Ec. split; [exact Ec|].
    destruct (name r) as [product|]; [|destruct Hk].
    destruct Hk as [<-|[]]. reflexivity.
  - intros [r [Hr [Hc Hn]]]. exists r. split; [exact Hr|].
    rewrite (proj2 (holds_eq c _) Hc), Hn. left. reflexivity.
Qed.

Lemma group_keys_category (df : DataFrame) (c k : string) :
  In k (Pandas.group_keys (category_rows df (Some c))) <->
  In k (distinct_names df c).
Proof.
  rewrite group_keys_In, distinct_names_In, in_map_iff. split.
  - intros [r [Hn Hr]]. apply category_rows_In in Hr. exists r. tauto.
  - intros [r [Hr [Hc Hn]]]. exists r. split; [exact Hn|].
    apply category_rows_In. tauto.
Qed.

Lemma group_keys_NoDup (frame : DataFrame) : NoDup (Pandas.group_keys frame).
Proof.
  unfold Pandas.group_keys.
  eapply Permutation_NoDup; [symmetry; apply sort_keys_permutation|].
  apply unique_NoDup, String.eqb_eq.
Qed.

Lemma product_ratings_names (category_df : DataFrame) :
  map pr_name (product_ratings category_df) = Pandas.group_keys category_df.
Proof.
  unfold product_ratings, Pandas.groupby_name_mean.
  rewrite map_map. simpl. apply map_id.
Qed.

Lemma product_ratings_length (df : DataFrame) (c : string) :
  length (product_ratings (category_rows df (Some c))) =
  length (distinct_names df c).
Proof.
  rewrite <- (length_map pr_name), product_ratings_names.
  apply Permutation_length, NoDup_Permutation.
  - apply group_keys_NoDup.
  - apply NoDup_nodup.
  - intros k. apply group_keys_category.
Qed.



(** An entry of the frame carries the mean rating of its product. *)
Lemma product_ratings_mean (df : DataFrame) (c : string) (p : ProductRating) :
  In p (product_ratings (category_rows df (Some c))) ->
  pr_rating p = product_mean df c (pr_name p) /\
  exists r, In r df /\ product_category r = Some c /\ name r = Some (pr_name p).
Proof.
  unfold product_ratings, Pandas.groupby_name_mean. intros H.
  apply in_map_iff in H. destruct H as [k [<- Hk]]. simpl. split.
  - unfold product_mean, product_rows. rewrite category_rows_holds, filter_twice.
    rewrite (filter_ext _ (fun r => holds c (product_category r) && holds k (name r)))
      by (intros r; rewrite eq_holds; reflexivity).
    reflexivity.
  - apply group_keys_category, distinct_names_In in Hk. exact Hk.
Qed.

(** Every product named in a row of the category has an entry. *)
Lemma product_ratings_complete (df : DataFrame) (c : string) (r : Row)
      (k : string) :
  In r df -> product_category r = Some c -> name r = Some k ->
  exists p, In p (product_ratings (category_rows df (Some c))) /\ pr_name p = k.
Proof.
  intros Hr Hc Hn.
  assert (Hk : In k (Pandas.group_keys (category_rows df (Some c)))).
  { apply group_keys_category, distinct_names_In. exists r. tauto. }
  rewrite <- product_ratings_names in Hk. apply in_map_iff in Hk.
  destruct Hk as [p [Hp Hin]]. exists p. split; assumption.
Qed.

(** ** The ranking *)

Section Ranking.

Variable argsort : list Q -> list nat.
Hypothesis argsort_ok : argsort_contract argsort.

Lemma top_products_data_length (df : DataFrame) (c : string) :
  length (top_products_data argsort (category_rows df (Some c))) =
  Nat.min 3 (length (distinct_names df c)).
Proof.
  unfold top_products_data, Pandas.head.
  rewrite length_map, length_firstn.
  rewrite (Permutation_length (sort_values_permutation argsort argsort_ok _ _ _)).
  rewrite product_ratings_length. reflexivity.
Qed.


Lemma top_products_data_In (df : DataFrame) (c : string) (t : TopProduct) :
  In t (top_products_data argsort (category_rows df (Some c))) ->
  exists p, In p (product_ratings (category_rows df (Some c))) /\
            tp_name t = pr_name p /\ tp_rating t = pr_rating p /\
            positive_summaries t =
            sentiment_summaries (category_rows df (Some c)) (pr_name p) "Positive".
Proof.
  unfold top_products_data, Pandas.head. intros H.
  apply in_map_iff in H. destruct H as [p [<- Hp]].
  exists p. repeat split.
  apply in_firstn in Hp.
  exact (Permutation_in _ (sort_values_permutation argsort argsort_ok _ _ _) Hp).
Qed.

(** The worst product is the head of the ascending sort: an entry of the
    frame of means with the least mean. *)
Lemma worst_product_data_some (category_df : DataFrame) (worst : WorstProduct) :
  worst_product_data argsort category_df = Some worst ->
  exists p,
    In p (product_ratings category_df) /\
    worst = mkWorstProduct (pr_name p) (pr_rating p)
              (sentiment_summaries category_df (pr_name p) "Negative") /\
    forall q, In q (product_ratings category_df) ->
              (pr_rating p <= pr_rating q)%Q.
Proof.
  unfold worst_product_data, Pandas.head.
  pose proof (sort_values_permutation argsort argsort_ok pr_rating true
                (product_ratings category_df)) as Hperm.
  pose proof (sort_values_ascending_sorted argsort argsort_ok pr_rating
                (product_ratings category_df)) as Hsorted.
  destruct (Pandas.sort_values argsort pr_rating true
              (product_ratings category_df)) as [|p s]; [discriminate|].
  cbn [firstn]. intros H. injection H as <-.
  exists p. split; [|split].
  - apply (Permutation_in _ Hperm). left. reflexivity.
  - reflexivity.
  - intros q Hq. apply (Permutation_in _ (Permutation_sym Hperm)) in Hq.
    apply StronglySorted_inv in Hsorted. destruct Hsorted as [_ Hall].
    destruct Hq as [<-|Hq]; [apply Qle_refl|].
    rewrite Forall_forall in Hall. apply Hall. exact Hq.
Qed.



End Ranking.

(** ** Summaries of a product *)

Lemma dropna_filtered_summaries (df : DataFrame) (c product sentiment : string) :
  Pandas.dropna
    (map chatgpt_summary
         (filter (fun r => holds c (product_category r)
                           && holds product (name r)
                           && holds sentiment (rating_sentiment r)) df)) =
  summaries_in_table_order df c product sentiment.
Proof.
  induction df as [|r df IH]; [reflexivity|].
  simpl.
  destruct (holds c (product_category r) && holds product (name r)
            && holds sentiment (rating_sentiment r)); [|exact IH].
  simpl. rewrite IH. destruct (chatgpt_summary r); reflexivity.
Qed.

Lemma sentiment_summaries_table_order (df : DataFrame) (c product sentiment : string) :
  sentiment_summaries (category_rows df (Some c)) product sentiment =
  firstn 5 (summaries_in_table_order df c product sentiment).
Proof.
  unfold sentiment_summaries, category_rows.
  rewrite !filter_twice, <- dropna_filtered_summaries.
  rewrite (filter_ext _ (fun r => holds c (product_category r)
                                  && holds product (name r)
                                  && holds sentiment (rating_sentiment r)))
    by (intros r; rewrite !eq_holds; apply andb_assoc).
  match goal with |- context [length ?rows] => destruct rows end; reflexivity.
Qed.

Lemma summaries_in_table_order_In (df : DataFrame) (c product sentiment s : string) :
  In s (summaries_in_table_order df c product sentiment) ->
  exists r, In r df /\ product_category r = Some c /\ name r = Some product /\
            rating_sentiment r = Some sentiment /\ chatgpt_summary r = Some s.
Proof.
  induction df as [|r df IH]; [intros []|].
  cbn [summaries_in_table_order].
  destruct (holds c (product_category r)) eqn:Ec;
    destruct (holds product (name r)) eqn:En;
    destruct (holds sentiment (rating_sentiment r)) eqn:Es; cbn [andb];
    try (intros H; destruct (IH H) as [r' [Hin Hr']]; exists r'; simpl; tauto).
  destruct (chatgpt_summary r) as [s'|] eqn:Esum.
  - intros [<-|H].
    + exists r. apply holds_eq in Ec, En, Es. simpl. tauto.
    + destruct (IH H) as [r' [Hin Hr']]. exists r'. simpl. tauto.
  - intros H. destruct (IH H) as [r' [Hin Hr']]. exists r'. simpl. tauto.
Qed.

Lemma excerpts_of_table_order (df : DataFrame) (c product sentiment : string) :
  excerpts df c product sentiment
           (firstn 5 (summaries_in_table_order df c product sentiment)).
Proof.
  unfold excerpts. repeat split.
  - apply firstn_le_length.
  - intros s Hs. apply in_firstn in Hs.
    apply summaries_in_table_order_In. exact Hs.
  - intros Hnone.
    destruct (summaries_in_table_order df c product sentiment) as [|s l] eqn:E;
      [reflexivity|].
    exfalso.
    destruct (summaries_in_table_order_In df c product sentiment s)
      as [r [Hin [Hc [Hn [Hs _]]]]]; [rewrite E; left; reflexivity|].
    exact (Hnone r Hin (conj Hc (conj Hn Hs))).
Qed.

(** ** The insertion sort keeps the promise of [argsort] *)

Lemma less_lt (a b : Q) : Numpy.less a b = true <-> (a < b)%Q.
Proof.
  unfold Numpy.less. rewrite negb_true_iff, <- not_true_iff_false, Qle_bool_iff.
  split; [apply Qnot_le_lt|apply Qlt_not_le].
Qed.

Lemma not_less_le (a b : Q) : Numpy.less a b = false -> (b <= a)%Q.
Proof.
  unfold Numpy.less. rewrite negb_false_iff, Qle_bool_iff. trivial.
Qed.

Section Insertion.

Variable v : list Q.

Lemma insert_index_permutation (i : nat) (sorted : list nat) :
  Permutation (Numpy.insert_index v i sorted) (i :: sorted).
Proof.
  induction sorted as [|j t IH]; [reflexivity|].
  simpl. destruct (Numpy.less _ _); [reflexivity|].
  rewrite IH. apply perm_swap.
Qed.

Lemma insert_index_sorted (i : nat) (sorted : list nat) :
  StronglySorted (le_key v) sorted ->
  StronglySorted (le_key v) (Numpy.insert_index v i sorted).
Proof.
  induction 1 as [|j t Hs IH Hj]; [repeat constructor|].
  simpl. destruct (Numpy.less (Numpy.key v i) (Numpy.key v j)) eqn:E.
  - apply less_lt, Qlt_le_weak in E.
    constructor; [constructor; assumption|].
    constructor; [exact E|].
    eapply Forall_impl; [|exact Hj]. intros k Hk. unfold le_key in *.
    eapply Qle_trans; eassumption.
  - apply not_less_le in E. constructor; [exact IH|].
    eapply Permutation_Forall; [symmetry; apply insert_index_permutation|].
    constructor; assumption.
Qed.

Lemma insertion_fold (l acc : list nat) :
  StronglySorted (le_key v) acc ->
  let sorted := fold_left (fun sorted i => Numpy.insert_index v i sorted) l acc in
  Permutation sorted (l ++ acc) /\ StronglySorted (le_key v) sorted.
Proof.
  revert acc. induction l as [|i l IH]; intros acc Hacc; simpl.
  - split; [reflexivity|exact Hacc].
  - destruct (IH _ (insert_index_sorted i acc Hacc)) as [Hp Hs].
    split; [|exact Hs].
    rewrite Hp, insert_index_permutation. symmetry. apply Permutation_middle.
Qed.

Lemma take_keys (p : list nat) :
  Forall (fun i => i < length v) p ->
  Pandas.take v p = map (Numpy.key v) p.
Proof.
  induction 1 as [|i p Hi _ IH]; [reflexivity|].
  rewrite take_cons, IH. unfold Numpy.key at 2.
  rewrite (nth_error_nth' v 0%Q Hi). reflexivity.
Qed.

Lemma argsort_stable_sorts :
  Permutation (Numpy.argsort_stable v) (seq 0 (length v)) /\
  StronglySorted Qle (Pandas.take v (Numpy.argsort_stable v)).
Proof.
  destruct (insertion_fold (seq 0 (length v)) [] (SSorted_nil _)) as [Hp Hs].
  rewrite app_nil_r in Hp. split; [exact Hp|].
  rewrite take_keys by (apply permutation_in_range; exact Hp).
  apply StronglySorted_map. exact Hs.
Qed.

End Insertion.

Lemma argsort_stable_contract : argsort_contract Numpy.argsort_stable.
Proof. intros keys. apply argsort_stable_sorts. Qed.

(** ** Index arrays *)

Lemma length_upd {A : Type} (i : nat) (x : A) (a : list A) :
  length (Numpy.upd i x a) = length a.
Proof.
  revert i. induction a as [|h a IH]; intros [|i]; simpl; auto.
Qed.

Lemma nth_upd {A : Type} (i r : nat) (x d : A) (a : list A) :
  i < length a ->
  nth r (Numpy.upd i x a) d = if r =? i then x else nth r a d.
Proof.
  revert i r. induction a as [|h a IH]; intros i r Hi; simpl in Hi; [lia|].
  destruct i as [|i], r as [|r]; simpl; try reflexivity.
  apply IH. lia.
Qed.

Lemma at_upd (t : list nat) (i r x : nat) :
  i < length t ->
  Numpy.at_ (Numpy.upd i x t) r = if r =? i then x else Numpy.at_ t r.
Proof. apply nth_upd. Qed.

Lemma upd_same (t : list nat) (i : nat) :
  Numpy.upd i (Numpy.at_ t i) t = t.
Proof.
  revert i. induction t as [|h t IH]; intros [|i]; simpl; try reflexivity.
  f_equal. apply IH.
Qed.

Lemma array_ext (a b : list nat) :
  length a = length b ->
  (forall r, r < length a -> Numpy.at_ a r = Numpy.at_ b r) ->
  a = b.
Proof. intros Hlen H. apply (nth_ext a b 0 0 Hlen H). Qed.

Lemma length_swap (t : list nat) (p q : nat) :
  length (Numpy.swap t p q) = length t.
Proof. unfold Numpy.swap. rewrite !length_upd. reflexivity. Qed.

Lemma at_swap (t : list nat) (p q r : nat) :
  p < length t -> q < length t ->
  Numpy.at_ (Numpy.swap t p q) r =
  if r =? q then Numpy.at_ t p else if r =? p then Numpy.at_ t q else Numpy.at_ t r.
Proof.
  intros Hp Hq. unfold Numpy.swap.
  rewrite at_upd by (rewrite length_upd; exact Hq).
  rewrite at_upd by exact Hp. reflexivity.
Qed.

(** Filling the hole one place further on is a swap of the filled arrays. *)
Lemma hole_moves (t : list nat) (i j x : nat) :
  i < length t -> j < length t -> i <> j ->
  Numpy.upd j x (Numpy.upd i (Numpy.at_ t j) t) =
  Numpy.swap (Numpy.upd i x t) i j.
Proof.
  intros Hi Hj Hij. apply array_ext.
  - rewrite length_swap, !length_upd. reflexivity.
  - intros r _.
    rewrite at_swap by (rewrite length_upd; assumption).
    rewrite !at_upd by (rewrite ?length_upd; assumption).
    rewrite Nat.eqb_refl.
    destruct (Nat.eqb_spec r j), (Nat.eqb_spec r i), (Nat.eqb_spec j i);
      try reflexivity; try lia; congruence.
Qed.

(** ** Rearrangements of a segment *)

Lemma rearranged_length (a b : nat) (t t' : list nat) :
  rearranged a b t t' -> length t' = length t.
Proof.
  induction 1 as [|t t' p q _ IH _ _ _]; [reflexivity|].
  rewrite length_swap. exact IH.
Qed.

Lemma rearranged_trans (a b : nat) (t1 t2 t3 : list nat) :
  rearranged a b t1 t2 -> rearranged a b t2 t3 -> rearranged a b t1 t3.
Proof.
  intros H12 H23. induction H23 as [|t t' p q _ IH Hp Hq Hb]; [exact H12|].
  apply rearranged_swap; auto.
Qed.

Lemma rearranged_one (a b p q : nat) (t : list nat) :
  a <= p <= b -> a <= q <= b -> b < length t ->
  rearranged a b t (Numpy.swap t p q).
Proof. intros. apply rearranged_swap; auto. apply rearranged_refl. Qed.

Lemma rearranged_widen (a b a' b' : nat) (t t' : list nat) :
  a' <= a -> b <= b' -> b' < length t ->
  rearranged a b t t' -> rearranged a' b' t t'.
Proof.
  intros Ha Hb Hlen H. induction H as [|t t' p q H IH Hp Hq Hbl].
  - apply rearranged_refl.
  - apply rearranged_swap; [apply IH; exact Hlen|lia|lia|].
    rewrite (rearranged_length _ _ _ _ H). exact Hlen.
Qed.

Lemma rearranged_frame (a b : nat) (t t' : list nat) (r : nat) :
  rearranged a b t t' -> r < a \/ b < r ->
  Numpy.at_ t' r = Numpy.at_ t r.
Proof.
  intros H Hr. induction H as [|t t' p q H IH Hp Hq Hb]; [reflexivity|].
  rewrite at_swap by lia.
  destruct (Nat.eqb_spec r q); [lia|].
  destruct (Nat.eqb_spec r p); [lia|]. exact IH.
Qed.

Lemma rearranged_inside (a b : nat) (t t' : list nat) (r : nat) :
  rearranged a b t t' -> a <= r <= b ->
  exists r', a <= r' <= b /\ Numpy.at_ t' r = Numpy.at_ t r'.
Proof.
  intros H. revert r. induction H as [|t t' p q H IH Hp Hq Hb]; intros r Hr.
  - exists r. split; [exact Hr|reflexivity].
  - rewrite at_swap by lia.
    destruct (Nat.eqb_spec r q); [apply IH; exact Hp|].
    destruct (Nat.eqb_spec r p); [apply IH; exact Hq|].
    apply IH. exact Hr.
Qed.

Lemma rearranged_inside_inv (a b : nat) (t t' : list nat) (r : nat) :
  rearranged a b t t' -> a <= r <= b ->
  exists r', a <= r' <= b /\ Numpy.at_ t r = Numpy.at_ t' r'.
Proof.
  intros H. revert r. induction H as [|t t' p q H IH Hp Hq Hb]; intros r Hr.
  - exists r. split; [exact Hr|reflexivity].
  - destruct (IH r Hr) as [r' [Hr' E]]. rewrite E.
    destruct (Nat.eq_dec r' p) as [->|Hnp].
    + exists q. split; [exact Hq|]. rewrite at_swap by lia.
      rewrite Nat.eqb_refl. reflexivity.
    + destruct (Nat.eq_dec r' q) as [->|Hnq].
      * exists p. split; [exact Hp|]. rewrite at_swap by lia.
        destruct (Nat.eqb_spec p q); [congruence|].
        rewrite Nat.eqb_refl. reflexivity.
      * exists r'. split; [exact Hr'|]. rewrite at_swap by lia.
        destruct (Nat.eqb_spec r' q); [congruence|].
        destruct (Nat.eqb_spec r' p); [congruence|]. reflexivity.
Qed.

Lemma rearranged_incl (a b : nat) (t t' : list nat) :
  rearranged a b t t' -> b < length t -> incl t t'.
Proof.
  intros H Hb x Hx.
  destruct (In_nth t x 0 Hx) as [r [Hr E]]. subst x.
  pose proof (rearranged_length _ _ _ _ H) as Hlen.
  change (nth r t 0) with (Numpy.at_ t r).
  destruct (le_lt_dec a r) as [Har|Har]; [destruct (le_lt_dec r b) as [Hrb|Hrb]|].
  - destruct (rearranged_inside_inv a b t t' r H (conj Har Hrb)) as [r' [Hr' E']].
    rewrite E'. apply nth_In. lia.
  - rewrite <- (rearranged_frame a b t t' r H) by lia.
    apply nth_In. lia.
  - rewrite <- (rearranged_frame a b t t' r H) by lia.
    apply nth_In. lia.
Qed.

(** A bound on the keys of a segment survives its rearrangement. *)
Lemma rearranged_bound (v : list Q) (a b : nat) (t t' : list nat) (P : Q -> Prop) :
  rearranged a b t t' ->
  (forall r, a <= r <= b -> P (Numpy.val v t r)) ->
  forall r, a <= r <= b -> P (Numpy.val v t' r).
Proof.
  intros H Hall r Hr.
  destruct (rearranged_inside a b t t' r H Hr) as [r' [Hr' E]].
  unfold Numpy.val. rewrite E. apply Hall. exact Hr'.
Qed.

Lemma val_frame (v : list Q) (a b : nat) (t t' : list nat) (r : nat) :
  rearranged a b t t' -> r < a \/ b < r ->
  Numpy.val v t' r = Numpy.val v t r.
Proof.
  intros H Hr. unfold Numpy.val. rewrite (rearranged_frame a b t t' r H Hr).
  reflexivity.
Qed.

(** ** The insertion sort of a partition *)

Section InsertionSort.

Variable v : list Q.

Lemma val_upd (t : list nat) (i r x : nat) :
  i < length t ->
  Numpy.val v (Numpy.upd i x t) r =
  if r =? i then Numpy.key v x else Numpy.val v t r.
Proof.
  intros Hi. unfold Numpy.val. rewrite at_upd by exact Hi.
  destruct (r =? i); reflexivity.
Qed.

Lemma val_swap (t : list nat) (p q r : nat) :
  p < length t -> q < length t ->
  Numpy.val v (Numpy.swap t p q) r =
  if r =? q then Numpy.val v t p
  else if r =? p then Numpy.val v t q else Numpy.val v t r.
Proof.
  intros Hp Hq. unfold Numpy.val. rewrite at_swap by assumption.
  destruct (r =? q); [reflexivity|]. destruct (r =? p); reflexivity.
Qed.

Lemma almost_sorted_exit (g : list nat) (pl pi pj : nat) :
  almost_sorted v g pl pi pj -> pl <= pj <= pi ->
  pj = pl \/ (Numpy.val v g (pj - 1) <= Numpy.val v g pj)%Q ->
  sorted_segment v g pl pi.
Proof.
  intros [Hrest Hafter] Hpj Hexit i j Hi Hij Hj.
  destruct (Nat.eq_dec i j) as [->|Hne]; [apply Qle_refl|].
  destruct (Nat.eq_dec i pj) as [->|Hip]; [apply Hafter; lia|].
  destruct (Nat.eq_dec j pj) as [->|Hjp]; [|apply Hrest; lia].
  destruct Hexit as [->|Hexit]; [lia|].
  destruct (Nat.eq_dec i (pj - 1)) as [->|Hi1]; [exact Hexit|].
  apply Qle_trans with (Numpy.val v g (pj - 1)); [|exact Hexit].
  apply Hrest; lia.
Qed.

Lemma almost_sorted_step (g : list nat) (pl pi pj : nat) :
  almost_sorted v g pl pi pj -> pl < pj -> pj <= pi -> pi < length g ->
  (Numpy.val v g pj < Numpy.val v g (pj - 1))%Q ->
  almost_sorted v (Numpy.swap g pj (pj - 1)) pl pi (pj - 1).
Proof.
  intros [Hrest Hafter] Hpl Hpi Hlen Hlt. split.
  - intros i j Hi Hij Hj Hni Hnj. rewrite !val_swap by lia.
    destruct (Nat.eqb_spec i (pj - 1)); [lia|].
    destruct (Nat.eqb_spec j (pj - 1)); [lia|].
    destruct (Nat.eqb_spec i pj) as [->|Hip];
      destruct (Nat.eqb_spec j pj) as [->|Hjp]; try lia.
    + apply Hrest; lia.
    + apply Hrest; lia.
    + apply Hrest; lia.
  - intros r Hr Hri. rewrite !val_swap by lia.
    rewrite Nat.eqb_refl.
    destruct (Nat.eqb_spec r (pj - 1)); [lia|].
    destruct (Nat.eqb_spec r pj) as [->|Hrp].
    + apply Qlt_le_weak. exact Hlt.
    + apply Hafter; lia.
Qed.

Lemma slide_sorts (pl pi vi : nat) :
  forall fuel t pj,
    pl <= pj -> pj <= pi -> pi < length t -> pj - pl <= fuel ->
    almost_sorted v (Numpy.upd pj vi t) pl pi pj ->
    rearranged pl pi (Numpy.upd pj vi t) (Numpy.slide v fuel t pl vi pj) /\
    sorted_segment v (Numpy.slide v fuel t pl vi pj) pl pi.
Proof.
  induction fuel as [|fuel IH]; intros t pj Hpl Hpi Hlen Hfuel Halmost.
  - simpl. split; [apply rearranged_refl|].
    apply (almost_sorted_exit _ pl pi pj); [exact Halmost|lia|left; lia].
  - simpl.
    assert (Hg : forall r, r <> pj ->
                 Numpy.val v (Numpy.upd pj vi t) r = Numpy.val v t r).
    { intros r Hr. rewrite val_upd by lia.
      destruct (Nat.eqb_spec r pj); [contradiction|reflexivity]. }
    assert (Hgp : Numpy.val v (Numpy.upd pj vi t) pj = Numpy.key v vi).
    { rewrite val_upd by lia. rewrite Nat.eqb_refl. reflexivity. }
    destruct (Nat.ltb_spec pl pj) as [Hlt|Hge]; simpl.
    + destruct (Numpy.less (Numpy.key v vi) (Numpy.val v t (pj - 1))) eqn:E.
      * apply less_lt in E.
        assert (Hmove : Numpy.upd (pj - 1) vi
                          (Numpy.upd pj (Numpy.at_ t (pj - 1)) t) =
                        Numpy.swap (Numpy.upd pj vi t) pj (pj - 1))
          by (apply hole_moves; lia).
        destruct (IH (Numpy.upd pj (Numpy.at_ t (pj - 1)) t) (pj - 1))
          as [Hre Hso]; try lia.
        { rewrite length_upd. exact Hlen. }
        { rewrite Hmove. apply almost_sorted_step; try lia.
          - exact Halmost.
          - rewrite length_upd. exact Hlen.
          - rewrite Hgp, Hg by lia. exact E. }
        split; [|exact Hso].
        eapply rearranged_trans; [|exact Hre].
        rewrite Hmove. apply rearranged_one; try lia.
        rewrite length_upd. lia.
      * apply not_less_le in E. split; [apply rearranged_refl|].
        apply (almost_sorted_exit _ pl pi pj); [exact Halmost|lia|].
        right. rewrite Hgp, Hg by lia. exact E.
    + split; [apply rearranged_refl|].
      apply (almost_sorted_exit _ pl pi pj); [exact Halmost|lia|left; lia].
Qed.

Lemma insertion_prefix (t : list nat) (pl pr : nat) :
  pr < length t ->
  forall k, pl + k <= pr ->
    let t' := fold_left (fun t pi => Numpy.slide v pi t pl (Numpy.at_ t pi) pi)
                        (seq (S pl) k) t in
    rearranged pl pr t t' /\ sorted_segment v t' pl (pl + k).
Proof.
  intros Hlen. induction k as [|k IH]; intros Hk.
  - simpl. split; [apply rearranged_refl|].
    intros i j Hi Hij Hj. assert (i = j) by lia. subst. apply Qle_refl.
  - rewrite seq_S, fold_left_app. cbn [fold_left].
    destruct IH as [Hre Hso]; [lia|].
    set (t' := fold_left _ (seq (S pl) k) t) in *.
    pose proof (rearranged_length _ _ _ _ Hre) as Hlen'.
    destruct (slide_sorts pl (S pl + k) (Numpy.at_ t' (S pl + k))
                          (S pl + k) t' (S pl + k)) as [Hre' Hso']; try lia.
    { rewrite upd_same. split.
      - intros i j Hi Hij Hj Hni Hnj. apply Hso; lia.
      - intros r Hr Hr'. lia. }
    rewrite upd_same in Hre'.
    split.
    + eapply rearranged_trans; [exact Hre|].
      apply (rearranged_widen pl (S pl + k)); try lia. exact Hre'.
    + replace (pl + S k) with (S pl + k) by lia. exact Hso'.
Qed.

Lemma insertion_sorts (t : list nat) (pl pr : nat) :
  pl <= pr -> pr < length t ->
  rearranged pl pr t (Numpy.insertion v t pl pr) /\
  sorted_segment v (Numpy.insertion v t pl pr) pl pr.
Proof.
  intros Hpl Hlen. unfold Numpy.insertion.
  destruct (insertion_prefix t pl pr Hlen (pr - pl)) as [Hre Hso]; [lia|].
  split; [exact Hre|].
  replace (pl + (pr - pl)) with pr in Hso by lia. exact Hso.
Qed.

End InsertionSort.

(** ** The partition around the median of three *)

Section Partition.

Variable v : list Q.

Local Abbreviation K := (Numpy.val v).

Lemma less_false (a b : Q) : Numpy.less a b = false <-> (b <= a)%Q.
Proof.
  split; [apply not_less_le|].
  intros H. destruct (Numpy.less a b) eqn:E; [|reflexivity].
  apply less_lt in E. lra.
Qed.

Lemma eq_Qeq (a b : Q) : a = b -> (a == b)%Q.
Proof. intros ->. reflexivity. Qed.

Lemma scan_up_spec (t : list nat) (vp : Q) (s : nat) :
  (vp <= K t s)%Q ->
  forall fuel p, p <= s -> s - p < fuel ->
    let r := Numpy.scan_up v fuel t vp p in
    p <= r <= s /\ (vp <= K t r)%Q /\ forall x, p <= x < r -> (K t x < vp)%Q.
Proof.
  intros Hs. induction fuel as [|fuel IH]; intros p Hp Hfuel; [lia|].
  simpl. destruct (Numpy.less (K t p) vp) eqn:E.
  - apply less_lt in E.
    assert (p <> s) by (intros ->; lra).
    destruct (IH (S p)) as [Hr [Hstop Hbelow]]; try lia.
    split; [lia|]. split; [exact Hstop|].
    intros x Hx. destruct (Nat.eq_dec x p) as [->|]; [exact E|].
    apply Hbelow. lia.
  - apply less_false in E. split; [lia|]. split; [exact E|]. intros x Hx. lia.
Qed.

Lemma scan_down_spec (t : list nat) (vp : Q) (s : nat) :
  (K t s <= vp)%Q ->
  forall fuel p, s <= p -> p - s < fuel ->
    let r := Numpy.scan_down v fuel t vp p in
    s <= r <= p /\ (K t r <= vp)%Q /\ forall x, r < x <= p -> (vp < K t x)%Q.
Proof.
  intros Hs. induction fuel as [|fuel IH]; intros p Hp Hfuel; [lia|].
  simpl. destruct (Numpy.less vp (K t p)) eqn:E.
  - apply less_lt in E.
    assert (p <> s) by (intros ->; lra).
    destruct (IH (p - 1)) as [Hr [Hstop Habove]]; try lia.
    split; [lia|]. split; [exact Hstop|].
    intros x Hx. destruct (Nat.eq_dec x p) as [->|]; [exact E|].
    apply Habove. lia.
  - apply less_false in E. split; [lia|]. split; [exact E|]. intros x Hx. lia.
Qed.

Lemma partition_loop_spec (pl pr : nat) (vp : Q) :
  forall fuel t pi pj,
    pl <= pi -> pi < pj -> pj <= pr - 1 -> pr < length t ->
    pj - pi <= fuel ->
    (forall r, pl <= r <= pi -> (K t r <= vp)%Q) ->
    (forall r, pj <= r <= pr -> (vp <= K t r)%Q) ->
    let '(t', pi') := Numpy.partition_loop v fuel t vp pi pj in
    pi < pi' /\ pi' <= pj /\
    rearranged (S pi) (pj - 1) t t' /\
    (forall r, pl <= r < pi' -> (K t' r <= vp)%Q) /\
    (forall r, pi' <= r <= pr -> (vp <= K t' r)%Q).
Proof.
  induction fuel as [|fuel IH]; intros t pi pj Hpl Hij Hpr Hlen Hfuel Hlow Hhigh;
    [lia|].
  cbn [Numpy.partition_loop].
  destruct (scan_up_spec t vp pj (Hhigh pj ltac:(lia)) (length t) (S pi))
    as [Hup [Hupstop Hupbelow]]; try lia.
  destruct (scan_down_spec t vp pi (Hlow pi ltac:(lia)) (length t) (pj - 1))
    as [Hdn [Hdnstop Hdnabove]]; try lia.
  set (pi' := Numpy.scan_up v (length t) t vp (S pi)) in *.
  set (pj' := Numpy.scan_down v (length t) t vp (pj - 1)) in *.
  destruct (Nat.leb_spec pj' pi') as [Hcross|Hgo].
  - split; [lia|]. split; [lia|]. split; [apply rearranged_refl|]. split.
    + intros r Hr. destruct (le_lt_dec r pi) as [Hri|Hri]; [apply Hlow; lia|].
      apply Qlt_le_weak, Hupbelow. lia.
    + intros r Hr. destruct (le_lt_dec pj r) as [Hrj|Hrj]; [apply Hhigh; lia|].
      destruct (Nat.eq_dec r pi') as [->|Hne]; [exact Hupstop|].
      apply Qlt_le_weak, Hdnabove. lia.
  - specialize (IH (Numpy.swap t pi' pj') pi' pj').
    destruct (Numpy.partition_loop v fuel (Numpy.swap t pi' pj') vp pi' pj')
      as [t' pi''].
    destruct IH as [H1 [H2 [H3 [H4 H5]]]]; try lia.
    + rewrite length_swap. exact Hlen.
    + intros r Hr. rewrite val_swap by lia.
      destruct (Nat.eqb_spec r pj'); [lia|].
      destruct (Nat.eqb_spec r pi') as [->|Hne]; [exact Hdnstop|].
      destruct (le_lt_dec r pi) as [Hri|Hri]; [apply Hlow; lia|].
      apply Qlt_le_weak, Hupbelow. lia.
    + intros r Hr. rewrite val_swap by lia.
      destruct (Nat.eqb_spec r pj') as [->|Hne]; [exact Hupstop|].
      destruct (Nat.eqb_spec r pi'); [lia|].
      destruct (le_lt_dec pj r) as [Hrj|Hrj]; [apply Hhigh; lia|].
      apply Qlt_le_weak, Hdnabove. lia.
    + split; [lia|]. split; [lia|]. split; [|split; assumption].
      eapply rearranged_trans.
      * apply (rearranged_one (S pi) (pj - 1) pi' pj'); lia.
      * apply (rearranged_widen (S pi') (pj' - 1)); try lia; [|exact H3].
        rewrite length_swap. lia.
Qed.

(** An exchange made only when the keys are out of order. *)
Lemma ordered_exchange (t : list nat) (x y : nat) :
  x < length t -> y < length t -> x <> y ->
  let t' := if Numpy.less (K t x) (K t y) then Numpy.swap t x y else t in
  length t' = length t /\
  (K t' y <= K t' x)%Q /\
  (forall r, r <> x -> r <> y -> Numpy.at_ t' r = Numpy.at_ t r) /\
  ((K t' x = K t x /\ K t' y = K t y) \/ (K t' x = K t y /\ K t' y = K t x)) /\
  forall a b, a <= x <= b -> a <= y <= b -> b < length t -> rearranged a b t t'.
Proof.
  intros Hx Hy Hxy. destruct (Numpy.less (K t x) (K t y)) eqn:E; cbv zeta.
  - apply less_lt in E. split; [apply length_swap|].
    rewrite !val_swap by assumption. rewrite !Nat.eqb_refl.
    destruct (Nat.eqb_spec x y); [contradiction|].
    split; [lra|]. split.
    + intros r Hrx Hry. rewrite at_swap by assumption.
      destruct (Nat.eqb_spec r y); [contradiction|].
      destruct (Nat.eqb_spec r x); [contradiction|]. reflexivity.
    + split; [right; split; reflexivity|].
      intros a b Ha Hb Hlen. apply rearranged_one; assumption.
  - apply less_false in E. split; [reflexivity|]. split; [exact E|].
    split; [reflexivity|]. split; [left; split; reflexivity|].
    intros. apply rearranged_refl.
Qed.

Lemma partition_spec (t : list nat) (pl pr : nat) :
  pl + 2 <= pr -> pr < length t ->
  let '(t', pi) := Numpy.partition v t pl pr in
  pl < pi /\ pi < pr /\ rearranged pl pr t t' /\
  (forall r, pl <= r < pi -> (K t' r <= K t' pi)%Q) /\
  (forall r, pi < r <= pr -> (K t' pi <= K t' r)%Q).
Proof.
  intros Hsize Hlen. unfold Numpy.partition.
  set (pm := pl + (pr - pl) / 2).
  assert (Hpm : pl < pm < pr).
  { unfold pm. pose proof (Nat.div_mod_eq (pr - pl) 2) as Hd.
    pose proof (Nat.mod_upper_bound (pr - pl) 2) as Hm. lia. }
  destruct (ordered_exchange t pm pl) as [L1 [O1 [F1 [_ R1]]]]; try lia.
  set (t1 := if Numpy.less (K t pm) (K t pl) then Numpy.swap t pm pl else t) in *.
  destruct (ordered_exchange t1 pr pm) as [L2 [O2 [F2 [C2 R2]]]]; try lia.
  set (t2 := if Numpy.less (K t1 pr) (K t1 pm) then Numpy.swap t1 pr pm else t1) in *.
  destruct (ordered_exchange t2 pm pl) as [L3 [O3 [F3 [C3 R3]]]]; try lia.
  set (t3 := if Numpy.less (K t2 pm) (K t2 pl) then Numpy.swap t2 pm pl else t2) in *.
  assert (E2 : K t2 pl = K t1 pl) by (unfold Numpy.val; rewrite F2 by lia; reflexivity).
  assert (E3 : K t3 pr = K t2 pr) by (unfold Numpy.val; rewrite F3 by lia; reflexivity).
  assert (Hhigh3 : (K t3 pm <= K t3 pr)%Q).
  { apply eq_Qeq in E2, E3.
    destruct C2 as [[Ea Eb]|[Ea Eb]], C3 as [[Ec Ed]|[Ec Ed]];
      apply eq_Qeq in Ea, Eb, Ec, Ed; lra. }
  set (vp := K t3 pm) in *.
  set (t4 := Numpy.swap t3 pm (pr - 1)).
  assert (L4 : length t4 = length t) by (unfold t4; rewrite length_swap; lia).
  assert (V4 : forall r, K t4 r =
                 if r =? pr - 1 then vp
                 else if r =? pm then K t3 (pr - 1) else K t3 r)
    by (intros r; unfold t4; apply val_swap; lia).
  pose proof (partition_loop_spec pl pr vp (length t4) t4 pl (pr - 1)) as Hloop.
  destruct (Numpy.partition_loop v (length t4) t4 vp pl (pr - 1)) as [t5 pi].
  destruct Hloop as [H1 [H2 [H3 [H4 H5]]]]; try lia.
  { intros r Hr. assert (r = pl) by lia. subst r. rewrite V4.
    destruct (Nat.eqb_spec pl (pr - 1)); [lia|].
    destruct (Nat.eqb_spec pl pm); [lia|]. exact O3. }
  { intros r Hr. rewrite V4.
    destruct (Nat.eqb_spec r (pr - 1)); [apply Qle_refl|].
    assert (r = pr) by lia. subst r.
    destruct (Nat.eqb_spec pr pm); [lia|]. exact Hhigh3. }
  pose proof (rearranged_length _ _ _ _ H3) as L5.
  assert (P5 : K t5 (pr - 1) = vp).
  { rewrite (val_frame v (S pl) (pr - 1 - 1) t4 t5) by (auto; lia).
    rewrite V4, Nat.eqb_refl. reflexivity. }
  assert (V6 : forall r, K (Numpy.swap t5 pi (pr - 1)) r =
                 if r =? pr - 1 then K t5 pi
                 else if r =? pi then vp else K t5 r).
  { intros r. rewrite val_swap by lia. rewrite P5. reflexivity. }
  split; [lia|]. split; [lia|]. split.
  - eapply rearranged_trans; [apply R1; lia|].
    eapply rearranged_trans; [apply R2; lia|].
    eapply rearranged_trans; [apply R3; lia|].
    eapply rearranged_trans; [apply (rearranged_one pl pr pm (pr - 1)); lia|].
    fold t4.
    eapply rearranged_trans.
    + apply (rearranged_widen (S pl) (pr - 1 - 1)); try lia. exact H3.
    + apply rearranged_one; lia.
  - assert (Vpi : K (Numpy.swap t5 pi (pr - 1)) pi = vp).
    { rewrite V6, Nat.eqb_refl.
      destruct (Nat.eqb_spec pi (pr - 1)) as [->|]; [exact P5|reflexivity]. }
    rewrite Vpi. split.
    + intros r Hr. rewrite V6.
      destruct (Nat.eqb_spec r (pr - 1)); [lia|].
      destruct (Nat.eqb_spec r pi); [lia|]. apply H4. lia.
    + intros r Hr. rewrite V6.
      destruct (Nat.eqb_spec r (pr - 1)); [apply H5; lia|].
      destruct (Nat.eqb_spec r pi); [lia|]. apply H5. lia.
Qed.

End Partition.

(** ** The heap sort of a partition *)

Section HeapSort.

Variable v : list Q.

Local Abbreviation K := (Numpy.val v).

Lemma sift_spec (pl n lo tmp : nat) :
  forall fuel t i,
    1 <= lo -> lo <= i -> i <= n -> pl + n - 1 < length t ->
    n + 1 - i <= fuel ->
    heap_but v (Numpy.upd (pl + i - 1) tmp t) pl n lo i ->
    heap_from v (Numpy.sift v fuel t pl n tmp i (i + i)) pl n lo /\
    rearranged pl (pl + n - 1) (Numpy.upd (pl + i - 1) tmp t)
               (Numpy.sift v fuel t pl n tmp i (i + i)).
Proof.
  induction fuel as [|fuel IH]; intros t i Hlo Hi Hn Hlen Hfuel [Hheap Hparent];
    [lia|].
  cbn [Numpy.sift].
  set (g := Numpy.upd (pl + i - 1) tmp t) in *.
  assert (Hg : forall r, r <> pl + i - 1 -> K g r = K t r).
  { intros r Hr. unfold g. rewrite val_upd by lia.
    destruct (Nat.eqb_spec r (pl + i - 1)); [contradiction|reflexivity]. }
  assert (Hgi : K g (pl + i - 1) = Numpy.key v tmp).
  { unfold g. rewrite val_upd by lia. rewrite Nat.eqb_refl. reflexivity. }
  assert (Hexit : (forall c, c = 2 * i \/ c = 2 * i + 1 -> c <= n ->
                             (K g (pl + c - 1) <= Numpy.key v tmp)%Q) ->
                  heap_from v g pl n lo).
  { intros Hc k Hk Hkn. destruct (Nat.eq_dec k i) as [->|Hne].
    - intros c Hci Hcn. rewrite Hgi. apply Hc; assumption.
    - apply Hheap; assumption. }
  destruct (Nat.leb_spec (i + i) n) as [Hchild|Hleaf].
  - set (j := if (i + i <? n)
                 && Numpy.less (K t (pl + (i + i) - 1)) (K t (pl + (i + i)))
              then S (i + i) else i + i).
    assert (Hj : (j = 2 * i \/ j = 2 * i + 1) /\ j <= n /\
                 forall c, c = 2 * i \/ c = 2 * i + 1 -> c <= n ->
                           (K t (pl + c - 1) <= K t (pl + j - 1))%Q).
    { assert (P1 : pl + 2 * i - 1 = pl + (i + i) - 1) by lia.
      assert (P2 : pl + (2 * i + 1) - 1 = pl + (i + i)) by lia.
      assert (P3 : pl + S (i + i) - 1 = pl + (i + i)) by lia.
      unfold j. destruct (Nat.ltb_spec (i + i) n) as [Hlt|Hge]; cbn [andb].
      - destruct (Numpy.less _ _) eqn:E.
        + apply less_lt in E. split; [lia|]. split; [lia|].
          intros c [->| ->] _; rewrite ?P1, ?P2, ?P3; [lra|apply Qle_refl].
        + apply not_less_le in E. split; [lia|]. split; [lia|].
          intros c [->| ->] _; rewrite ?P1, ?P2, ?P3; [apply Qle_refl|exact E].
      - split; [lia|]. split; [lia|].
        intros c [->| ->] Hc; [|lia]. rewrite P1. apply Qle_refl. }
    destruct Hj as [Hjc [Hjn Hjmax]].
    destruct (Numpy.less (Numpy.key v tmp) (K t (pl + j - 1))) eqn:E.
    + apply less_lt in E.
      assert (Hmove : Numpy.upd (pl + j - 1) tmp
                        (Numpy.upd (pl + i - 1) (Numpy.at_ t (pl + j - 1)) t) =
                      Numpy.swap g (pl + i - 1) (pl + j - 1))
        by (apply hole_moves; lia).
      assert (Vs : forall r, K (Numpy.swap g (pl + i - 1) (pl + j - 1)) r =
                     if r =? pl + j - 1 then Numpy.key v tmp
                     else if r =? pl + i - 1 then K t (pl + j - 1) else K g r).
      { intros r. rewrite val_swap by (unfold g; rewrite length_upd; lia).
        rewrite Hgi, Hg by lia. reflexivity. }
      destruct (IH (Numpy.upd (pl + i - 1) (Numpy.at_ t (pl + j - 1)) t) j)
        as [Hres Hre]; try lia.
      { rewrite length_upd. exact Hlen. }
      { rewrite Hmove. split.
        - intros k Hk Hkn Hkj c Hc Hcn. rewrite !Vs.
          destruct (Nat.eqb_spec (pl + k - 1) (pl + j - 1)); [lia|].
          destruct (Nat.eq_dec k i) as [->|Hki].
          + destruct (Nat.eqb_spec (pl + i - 1) (pl + i - 1)); [|lia].
            destruct (Nat.eqb_spec (pl + c - 1) (pl + j - 1)); [lra|].
            destruct (Nat.eqb_spec (pl + c - 1) (pl + i - 1)); [lia|].
            rewrite Hg by lia. apply Hjmax; assumption.
          + destruct (Nat.eqb_spec (pl + k - 1) (pl + i - 1)); [lia|].
            destruct (Nat.eqb_spec (pl + c - 1) (pl + j - 1)); [lia|].
            destruct (Nat.eqb_spec (pl + c - 1) (pl + i - 1)) as [Hci|Hci].
            * assert (c = i) by lia. subst c.
              rewrite <- (Hg (pl + j - 1)) by lia.
              apply (Hparent k j); try lia.
            * apply Hheap; assumption.
        - intros p c Hp Hjp Hc Hcn. rewrite !Vs.
          assert (p = i) by lia. subst p.
          destruct (Nat.eqb_spec (pl + c - 1) (pl + j - 1)); [lia|].
          destruct (Nat.eqb_spec (pl + c - 1) (pl + i - 1)); [lia|].
          destruct (Nat.eqb_spec (pl + i - 1) (pl + j - 1)); [lia|].
          destruct (Nat.eqb_spec (pl + i - 1) (pl + i - 1)); [|lia].
          rewrite <- (Hg (pl + j - 1)) by lia.
          apply (Hheap j); lia. }
      split; [exact Hres|].
      eapply rearranged_trans; [|exact Hre].
      rewrite Hmove. apply rearranged_one; try lia.
      unfold g. rewrite length_upd. lia.
    + apply not_less_le in E. split; [|apply rearranged_refl].
      apply Hexit. intros c Hc Hcn. rewrite Hg by lia.
      apply Qle_trans with (K t (pl + j - 1)); [|exact E].
      apply Hjmax; assumption.
  - split; [|apply rearranged_refl]. apply Hexit. intros c Hc Hcn. lia.
Qed.

Lemma heapify_loop (pl n : nat) :
  forall m t,
    m <= n -> pl + n - 1 < length t -> heap_from v t pl n (S m) ->
    let res := fold_left
                 (fun t l => Numpy.sift v n t pl n (Numpy.at_ t (pl + l - 1)) l (l + l))
                 (rev (seq 1 m)) t in
    heap_from v res pl n 1 /\ rearranged pl (pl + n - 1) t res.
Proof.
  induction m as [|m IH]; intros t Hm Hlen Hheap.
  - simpl. split; [exact Hheap|apply rearranged_refl].
  - rewrite seq_S, rev_app_distr. cbn [rev app fold_left].
    replace (1 + m) with (S m) by lia.
    destruct (sift_spec pl n (S m) (Numpy.at_ t (pl + S m - 1)) n t (S m))
      as [Hres Hre]; try lia.
    { rewrite upd_same. split.
      - intros k Hk Hkn Hne. apply Hheap; lia.
      - intros p c Hp Hi. lia. }
    rewrite upd_same in Hre.
    destruct (IH (Numpy.sift v n t pl n (Numpy.at_ t (pl + S m - 1)) (S m) (S m + S m)))
      as [Hres' Hre']; try lia.
    { rewrite (rearranged_length _ _ _ _ Hre). exact Hlen. }
    { exact Hres. }
    split; [exact Hres'|]. eapply rearranged_trans; eassumption.
Qed.

Lemma heapify_spec (t : list nat) (pl n : nat) :
  pl + n - 1 < length t ->
  heap_from v (Numpy.heapify v t pl n) pl n 1 /\
  rearranged pl (pl + n - 1) t (Numpy.heapify v t pl n).
Proof.
  intros Hlen. unfold Numpy.heapify.
  apply heapify_loop; [|exact Hlen|].
  - pose proof (Nat.div_mod_eq n 2). lia.
  - intros k Hk Hkn c Hc Hcn.
    pose proof (Nat.div_mod_eq n 2) as Hd.
    pose proof (Nat.mod_upper_bound n 2) as Hr. lia.
Qed.

Lemma heap_root_max (t : list nat) (pl m : nat) :
  heap_from v t pl m 1 ->
  forall k, 1 <= k -> k <= m -> (K t (pl + k - 1) <= K t (pl + 1 - 1))%Q.
Proof.
  intros Hheap k. induction k as [k IH] using lt_wf_ind. intros Hk Hkm.
  destruct (Nat.eq_dec k 1) as [->|Hne]; [apply Qle_refl|].
  pose proof (Nat.div_mod_eq k 2) as Hd.
  pose proof (Nat.mod_upper_bound k 2) as Hr.
  apply Qle_trans with (K t (pl + k / 2 - 1)).
  - apply (Hheap (k / 2)); lia.
  - apply IH; lia.
Qed.

Lemma extract_loop (pl n : nat) :
  forall m t,
    1 <= m -> m <= n -> pl + n - 1 < length t ->
    heap_and_sorted v t pl n m ->
    let res := fold_left
                 (fun t m =>
                    let tmp := Numpy.at_ t (pl + m - 1) in
                    let t := Numpy.upd (pl + m - 1) (Numpy.at_ t pl) t in
                    Numpy.sift v m t pl (m - 1) tmp 1 2)
                 (rev (seq 2 (m - 1))) t in
    rearranged pl (pl + n - 1) t res /\ sorted_segment v res pl (pl + n - 1).
Proof.
  induction m as [|m IH]; intros t Hm Hmn Hlen [Hheap [Hsorted Hsplit]]; [lia|].
  destruct (Nat.eq_dec m 0) as [->|Hm0].
  - simpl. split; [apply rearranged_refl|].
    intros i j Hi Hij Hj.
    destruct (Nat.eq_dec i j) as [->|Hne]; [apply Qle_refl|].
    destruct (Nat.eq_dec i pl) as [->|Hip].
    + replace pl with (pl + 1 - 1) at 1 by lia.
      replace j with (pl + (j - pl + 1) - 1) by lia.
      apply Hsplit; lia.
    + apply Hsorted; lia.
  - replace (S m - 1) with (S (m - 1)) by lia.
    rewrite seq_S, rev_app_distr. cbn [rev app fold_left].
    replace (2 + (m - 1)) with (S m) by lia.
    set (tmp := Numpy.at_ t (pl + S m - 1)).
    set (t1 := Numpy.upd (pl + S m - 1) (Numpy.at_ t pl) t).
    assert (Hg : Numpy.upd (pl + 1 - 1) tmp t1 = Numpy.swap t (pl + S m - 1) pl).
    { unfold t1, tmp. replace (pl + 1 - 1) with pl by lia.
      rewrite hole_moves by lia. rewrite upd_same. reflexivity. }
    assert (Vg : forall r, K (Numpy.swap t (pl + S m - 1) pl) r =
                   if r =? pl then K t (pl + S m - 1)
                   else if r =? pl + S m - 1 then K t pl else K t r)
      by (intros r; apply val_swap; lia).
    destruct (sift_spec pl (S m - 1) 1 tmp (S m) t1 1) as [Hres Hre]; try lia.
    { unfold t1. rewrite length_upd. lia. }
    { rewrite Hg. split.
      - intros k Hk Hkn Hne c Hc Hcn. rewrite !Vg.
        destruct (Nat.eqb_spec (pl + c - 1) pl); [lia|].
        destruct (Nat.eqb_spec (pl + c - 1) (pl + S m - 1)); [lia|].
        destruct (Nat.eqb_spec (pl + k - 1) pl); [lia|].
        destruct (Nat.eqb_spec (pl + k - 1) (pl + S m - 1)); [lia|].
        apply (Hheap k); lia.
      - intros p c Hp Hi. lia. }
    rewrite Hg in Hre. change (1 + 1) with 2 in *.
    set (res1 := Numpy.sift v (S m) t1 pl (S m - 1) tmp 1 2) in *.
    assert (Hlen1 : length res1 = length t).
    { rewrite (rearranged_length _ _ _ _ Hre), length_swap. reflexivity. }
    assert (Hout : forall r, pl + (S m - 1) - 1 < r ->
                             K res1 r = K (Numpy.swap t (pl + S m - 1) pl) r).
    { intros r Hr. apply (val_frame v pl (pl + (S m - 1) - 1)); [exact Hre|lia]. }
    destruct (IH res1) as [Hre' Hso']; try lia.
    { replace m with (S m - 1) at 1 by lia. split; [|split].
      - exact Hres.
      - intros i j Hi Hij Hj. rewrite !Hout, !Vg by lia.
        destruct (Nat.eqb_spec i pl); [lia|]. destruct (Nat.eqb_spec j pl); [lia|].
        destruct (Nat.eqb_spec i (pl + S m - 1)) as [->|Hi'];
          destruct (Nat.eqb_spec j (pl + S m - 1)) as [Hj'|Hj']; try lia.
        + apply Qle_refl.
        + replace pl with (pl + 1 - 1) at 1 by lia.
          replace j with (pl + (j - pl + 1) - 1) by lia.
          apply Hsplit; lia.
        + apply Hsorted; lia.
      - intros k r Hk Hkm Hr Hrn.
        rewrite (Hout (pl + r - 1)) by lia.
        apply (rearranged_bound v pl (pl + (S m - 1) - 1) _ res1
                 (fun x => (x <= K (Numpy.swap t (pl + S m - 1) pl) (pl + r - 1))%Q)
                 Hre); [|lia].
        intros r' Hr'. rewrite !Vg.
        destruct (Nat.eqb_spec (pl + r - 1) pl); [lia|].
        assert (Hold : forall k', 1 <= k' -> k' <= S m ->
                   (K t (pl + k' - 1) <=
                    (if pl + r - 1 =? pl + S m - 1 then K t pl else K t (pl + r - 1)))%Q).
        { intros k' Hk1 Hk2.
          destruct (Nat.eqb_spec (pl + r - 1) (pl + S m - 1)).
          - replace pl with (pl + 1 - 1) at 2 by lia.
            apply (heap_root_max t pl (S m)); assumption.
          - apply Hsplit; lia. }
        destruct (Nat.eqb_spec r' pl) as [->|Hr'pl]; [apply Hold; lia|].
        destruct (Nat.eqb_spec r' (pl + S m - 1)); [lia|].
        replace r' with (pl + (r' - pl + 1) - 1) by lia. apply Hold; lia. }
    split; [|exact Hso'].
    eapply rearranged_trans;
      [apply (rearranged_one pl (pl + n - 1) (pl + S m - 1) pl); lia|].
    eapply rearranged_trans; [|exact Hre'].
    apply (rearranged_widen pl (pl + (S m - 1) - 1)); try lia.
    + rewrite length_swap. lia.
    + exact Hre.
Qed.

Lemma aheapsort_sorts (t : list nat) (pl n : nat) :
  1 <= n -> pl + n - 1 < length t ->
  rearranged pl (pl + n - 1) t (Numpy.aheapsort v t pl n) /\
  sorted_segment v (Numpy.aheapsort v t pl n) pl (pl + n - 1).
Proof.
  intros Hn Hlen. unfold Numpy.aheapsort.
  destruct (heapify_spec t pl n Hlen) as [Hheap Hre].
  destruct (extract_loop pl n n (Numpy.heapify v t pl n)) as [Hre' Hso];
    try lia.
  { rewrite (rearranged_length _ _ _ _ Hre). exact Hlen. }
  { split; [exact Hheap|]. split.
    - intros i j Hi Hij Hj. lia.
    - intros k r Hk Hkn Hr Hrn. lia. }
  split; [|exact Hso]. eapply rearranged_trans; eassumption.
Qed.

End HeapSort.

(** ** The quicksort *)

Section QuickSort.

Variable v : list Q.

Local Abbreviation K := (Numpy.val v).

(** Rearranging a partition keeps the rest of the array in order with it. *)
Lemma segment_rearranged (t t' : list nat) (pl pr : nat) (rest : list (nat * nat)) :
  valid_segments (length t) ((pl, pr) :: rest) ->
  ordered_outside v t ((pl, pr) :: rest) ->
  rearranged pl pr t t' ->
  forall i j, i < j -> j < length t' ->
              (K t' i <= K t' j)%Q \/ (pl <= i /\ j <= pr) \/
              Exists (fun s => fst s <= i /\ j <= snd s) rest.
Proof.
  intros [Hin Hapart] Hord Hre.
  pose proof (rearranged_length _ _ _ _ Hre) as Hlen.
  inversion Hin as [|? ? [Hle Hpr] Hin']; subst. cbn [fst snd] in *.
  inversion Hapart as [|? ? Hhead Hapart']; subst.
  assert (Houtside : forall i j,
             ~ (pl <= i /\ j <= pr) ->
             Exists (fun s => fst s <= i /\ j <= snd s) ((pl, pr) :: rest) ->
             Exists (fun s => fst s <= i /\ j <= snd s) rest).
  { intros i j Hnot Hex. inversion Hex; subst; [contradiction|assumption]. }
  assert (Hclear : forall i j, i < j ->
             (pl <= i <= pr /\ pr < j) \/ (i < pl /\ pl <= j <= pr) ->
             ~ Exists (fun s => fst s <= i /\ j <= snd s) rest).
  { intros i j Hij Hcase Hex. apply Exists_exists in Hex.
    destruct Hex as [s [Hs [Hs1 Hs2]]].
    rewrite Forall_forall in Hhead. specialize (Hhead s Hs). cbn [fst snd] in Hhead.
    lia. }
  intros i j Hij Hj. rewrite Hlen in Hj.
  destruct (le_lt_dec pl i) as [Hpi|Hpi]; [destruct (le_lt_dec j pr) as [Hjp|Hjp]|].
  - right. left. lia.
  - destruct (le_lt_dec i pr) as [Hip|Hip].
    + left. rewrite (val_frame v pl pr t t' j Hre) by lia.
      apply (rearranged_bound v pl pr t t' (fun x => (x <= K t j)%Q) Hre); [|lia].
      intros r Hr. destruct (Hord r j) as [H|H]; try lia; [exact H|].
      exfalso. apply (Hclear r j); [lia|lia|].
      apply Houtside; [lia|exact H].
    + rewrite !(val_frame v pl pr t t' _ Hre) by lia.
      destruct (Hord i j) as [H|H]; try lia; [left; exact H|].
      right. right. apply Houtside; [lia|exact H].
  - destruct (le_lt_dec pl j) as [Hpj|Hpj]; [destruct (le_lt_dec j pr) as [Hjp|Hjp]|].
    + left. rewrite (val_frame v pl pr t t' i Hre) by lia.
      apply (rearranged_bound v pl pr t t' (fun x => (K t i <= x)%Q) Hre); [|lia].
      intros r Hr. destruct (Hord i r) as [H|H]; try lia; [exact H|].
      exfalso. apply (Hclear i r); [lia|lia|].
      apply Houtside; [lia|exact H].
    + rewrite !(val_frame v pl pr t t' _ Hre) by lia.
      destruct (Hord i j) as [H|H]; try lia; [left; exact H|].
      right. right. apply Houtside; [lia|exact H].
    + rewrite !(val_frame v pl pr t t' _ Hre) by lia.
      destruct (Hord i j) as [H|H]; try lia; [left; exact H|].
      right. right. apply Houtside; [lia|exact H].
Qed.

(** A partition that has been sorted is done with. *)
Lemma segment_done (t t' : list nat) (pl pr : nat) (rest : list (nat * nat)) :
  valid_segments (length t) ((pl, pr) :: rest) ->
  ordered_outside v t ((pl, pr) :: rest) ->
  rearranged pl pr t t' -> sorted_segment v t' pl pr ->
  valid_segments (length t') rest /\ ordered_outside v t' rest.
Proof.
  intros Hvalid Hord Hre Hso.
  pose proof (segment_rearranged t t' pl pr rest Hvalid Hord Hre) as Hnew.
  destruct Hvalid as [Hin Hapart].
  inversion Hin; subst. inversion Hapart; subst.
  split.
  - split; [rewrite (rearranged_length _ _ _ _ Hre)|]; assumption.
  - intros i j Hij Hj. destruct (Hnew i j Hij Hj) as [H|[H|H]].
    + left. exact H.
    + left. apply Hso; lia.
    + right. exact H.
Qed.

(** A partition split around its pivot leaves its two sides to sort. *)
Lemma segment_split (t t' : list nat) (pl pr pi : nat) (rest : list (nat * nat)) :
  valid_segments (length t) ((pl, pr) :: rest) ->
  ordered_outside v t ((pl, pr) :: rest) ->
  rearranged pl pr t t' -> pl < pi -> pi < pr ->
  (forall r, pl <= r < pi -> (K t' r <= K t' pi)%Q) ->
  (forall r, pi < r <= pr -> (K t' pi <= K t' r)%Q) ->
  valid_segments (length t') ((pl, pi - 1) :: (S pi, pr) :: rest) /\
  ordered_outside v t' ((pl, pi - 1) :: (S pi, pr) :: rest).
Proof.
  intros Hvalid Hord Hre Hpl Hpr Hlow Hhigh.
  pose proof (segment_rearranged t t' pl pr rest Hvalid Hord Hre) as Hnew.
  destruct Hvalid as [Hin Hapart].
  inversion Hin as [|? ? [Hle Hlen] Hin']; subst. cbn [fst snd] in *.
  inversion Hapart as [|? ? Hhead Hapart']; subst.
  rewrite <- (rearranged_length _ _ _ _ Hre) in *.
  split; [split|].
  - repeat constructor; cbn [fst snd]; try lia. exact Hin'.
  - constructor; [|constructor; [|exact Hapart']].
    + constructor; [cbn [fst snd]; lia|].
      eapply Forall_impl; [|exact Hhead]. cbn [fst snd]. intros s Hs. lia.
    + eapply Forall_impl; [|exact Hhead]. cbn [fst snd]. intros s Hs. lia.
  - intros i j Hij Hj. destruct (Hnew i j Hij Hj) as [H|[H|H]].
    + left. exact H.
    + destruct (le_lt_dec j (pi - 1)) as [Hj1|Hj1].
      { right. apply Exists_cons_hd. cbn [fst snd]. lia. }
      destruct (le_lt_dec (S pi) i) as [Hi1|Hi1].
      { right. apply Exists_cons_tl, Exists_cons_hd. cbn [fst snd]. lia. }
      left. apply Qle_trans with (K t' pi).
      * destruct (Nat.eq_dec i pi) as [->|]; [apply Qle_refl|apply Hlow; lia].
      * destruct (Nat.eq_dec j pi) as [->|]; [apply Qle_refl|apply Hhigh; lia].
    + right. apply Exists_cons_tl, Exists_cons_tl. exact H.
Qed.

Lemma segments_exchange (t : list nat) (a b : nat * nat) (rest : list (nat * nat)) :
  valid_segments (length t) (a :: b :: rest) /\ ordered_outside v t (a :: b :: rest) ->
  valid_segments (length t) (b :: a :: rest) /\ ordered_outside v t (b :: a :: rest).
Proof.
  intros [[Hin Hapart] Hord].
  inversion Hin as [|? ? Ha Hin']; subst. inversion Hin' as [|? ? Hb Hin'']; subst.
  inversion Hapart as [|? ? Hha Hapart']; subst.
  inversion Hha as [|? ? Hab Hra]; subst.
  inversion Hapart' as [|? ? Hhb Hapart'']; subst.
  split; [split|].
  - constructor; [exact Hb|constructor; [exact Ha|exact Hin'']].
  - constructor; [constructor; [lia|exact Hhb]|constructor; [exact Hra|exact Hapart'']].
  - intros i j Hij Hj. destruct (Hord i j Hij Hj) as [H|H]; [left; exact H|].
    right. inversion H as [? ? H1|? ? H1]; subst.
    + apply Exists_cons_tl, Exists_cons_hd. exact H1.
    + inversion H1 as [? ? H2|? ? H2]; subst.
      * apply Exists_cons_hd. exact H2.
      * apply Exists_cons_tl, Exists_cons_tl. exact H2.
Qed.

Lemma iterations_cons (s : nat * nat) (segs : list (nat * nat)) :
  iterations (s :: segs) = 2 * (snd s - fst s) + 1 + iterations segs.
Proof. reflexivity. Qed.

Lemma aquicksort_loop_sorts :
  forall fuel check t pl pr cdepth stack,
    valid_segments (length t) (segments pl pr stack) ->
    ordered_outside v t (segments pl pr stack) ->
    iterations (segments pl pr stack) <= fuel ->
    rearranged 0 (length t - 1) t
               (Numpy.aquicksort_loop v fuel check t pl pr cdepth stack) /\
    ordered_outside v (Numpy.aquicksort_loop v fuel check t pl pr cdepth stack) [].
Proof.
  induction fuel as [|fuel IH];
    intros check t pl pr cdepth stack Hvalid Hord Hfuel.
  { unfold segments in Hfuel. rewrite iterations_cons in Hfuel. lia. }
  unfold segments in *. rewrite iterations_cons in Hfuel. cbn [fst snd] in Hfuel.
  assert (Hrange : pl <= pr /\ pr < length t).
  { destruct Hvalid as [Hin _]. inversion Hin as [|? ? H _]; subst. exact H. }
  assert (Hdone : forall t',
             rearranged pl pr t t' -> sorted_segment v t' pl pr ->
             let res := match stack with
                        | [] => t'
                        | (l, r, d) :: stack' =>
                            Numpy.aquicksort_loop v fuel true t' l r d stack'
                        end in
             rearranged 0 (length t - 1) t res /\ ordered_outside v res []).
  { intros t' Hre Hso.
    destruct (segment_done t t' pl pr (map fst stack) Hvalid Hord Hre Hso)
      as [Hvalid' Hord'].
    pose proof (rearranged_length _ _ _ _ Hre) as Hlen.
    assert (Hwide : rearranged 0 (length t - 1) t t')
      by (apply (rearranged_widen pl pr); try lia; exact Hre).
    destruct stack as [|[[l r] d] stack']; cbv zeta.
    - split; [exact Hwide|exact Hord'].
    - destruct (IH true t' l r d stack') as [Hre' Hord'']; try assumption.
      + cbn [map fst] in Hfuel. unfold segments. lia.
      + split; [|exact Hord''].
        eapply rearranged_trans; [exact Hwide|]. rewrite <- Hlen. exact Hre'. }
  cbn [Numpy.aquicksort_loop].
  destruct (check && (cdepth <? 0)%Z).
  - destruct (aheapsort_sorts v t pl (pr - pl + 1)) as [Hre Hso]; try lia.
    replace (pl + (pr - pl + 1) - 1) with pr in * by lia.
    apply Hdone; assumption.
  - destruct (Nat.ltb_spec 16 (pr - pl)) as [Hbig|Hsmall].
    + pose proof (partition_spec v t pl pr) as Hpart.
      destruct (Numpy.partition v t pl pr) as [t' pi].
      destruct Hpart as [Hpl [Hpr [Hre [Hlow Hhigh]]]]; try lia.
      pose proof (segment_split t t' pl pr pi (map fst stack) Hvalid Hord Hre
                    Hpl Hpr Hlow Hhigh) as Hsplit.
      pose proof (rearranged_length _ _ _ _ Hre) as Hlen.
      assert (Hwide : rearranged 0 (length t - 1) t t')
        by (apply (rearranged_widen pl pr); try lia; exact Hre).
      destruct (pi - pl <? pr - pi).
      * destruct Hsplit as [Hvalid' Hord'].
        destruct (IH false t' pl (pi - 1) (cdepth - 1)%Z
                     ((S pi, pr, (cdepth - 1)%Z) :: stack)) as [Hre' Hord''];
          try assumption.
        { unfold segments. cbn [map fst]. rewrite !iterations_cons.
          cbn [fst snd]. lia. }
        split; [|exact Hord''].
        eapply rearranged_trans; [exact Hwide|]. rewrite <- Hlen. exact Hre'.
      * apply segments_exchange in Hsplit. destruct Hsplit as [Hvalid' Hord'].
        destruct (IH false t' (S pi) pr (cdepth - 1)%Z
                     ((pl, pi - 1, (cdepth - 1)%Z) :: stack)) as [Hre' Hord''];
          try assumption.
        { unfold segments. cbn [map fst]. rewrite !iterations_cons.
          cbn [fst snd]. lia. }
        split; [|exact Hord''].
        eapply rearranged_trans; [exact Hwide|]. rewrite <- Hlen. exact Hre'.
    + destruct (insertion_sorts v t pl pr) as [Hre Hso]; try lia.
      apply Hdone; assumption.
Qed.

Lemma sorted_by_position (f : nat -> Q) (l : list nat) :
  (forall i j, i < j -> j < length l -> (f (nth i l 0%nat) <= f (nth j l 0%nat))%Q) ->
  StronglySorted Qle (map f l).
Proof.
  induction l as [|a l IH]; intros H; [constructor|].
  simpl. constructor.
  - apply IH. intros i j Hij Hj. apply (H (S i) (S j)); simpl; lia.
  - apply Forall_forall. intros q Hq. apply in_map_iff in Hq.
    destruct Hq as [x [<- Hx]]. destruct (In_nth l x 0 Hx) as [j [Hj <-]].
    apply (H 0 (S j)); simpl; lia.
Qed.

Lemma argsort_quicksort_sorts :
  Permutation (Numpy.argsort_quicksort v) (seq 0 (length v)) /\
  StronglySorted Qle (Pandas.take v (Numpy.argsort_quicksort v)).
Proof.
  unfold Numpy.argsort_quicksort.
  destruct (Nat.eq_dec (length v) 0) as [Hzero|Hpos].
  { rewrite Hzero. simpl. split; constructor. }
  set (t := seq 0 (length v)).
  assert (Hlen : length t = length v) by apply length_seq.
  destruct (aquicksort_loop_sorts (2 * length v + 2) true t 0 (length v - 1)
              (2 * Z.log2 (Z.of_nat (length v))) []) as [Hre Hord].
  - split.
    + constructor; [cbn [fst snd]; lia|constructor].
    + repeat constructor.
  - intros i j Hij Hj. right. apply Exists_cons_hd. cbn [fst snd]. lia.
  - unfold segments. cbn [map]. rewrite iterations_cons. cbn [fst snd iterations fold_right].
    lia.
  - set (res := Numpy.aquicksort_loop v _ _ _ _ _ _ _) in *.
    assert (Hperm : Permutation res (seq 0 (length v))).
    { symmetry. apply NoDup_Permutation_bis.
      - apply seq_NoDup.
      - rewrite (rearranged_length _ _ _ _ Hre), Hlen, length_seq. lia.
      - apply (rearranged_incl 0 (length t - 1)); [exact Hre|].
        unfold t. rewrite length_seq. lia. }
    split; [exact Hperm|].
    rewrite take_keys by (apply permutation_in_range; exact Hperm).
    apply sorted_by_position. intros i j Hij Hj.
    destruct (Hord i j Hij Hj) as [H|H]; [exact H|inversion H].
Qed.

End QuickSort.

(** numpy's quicksort keeps the promise of [argsort]. *)
Lemma argsort_quicksort_contract : argsort_contract Numpy.argsort_quicksort.
Proof. intros keys. apply argsort_quicksort_sorts. Qed.

(** * The claims *)


Lemma category_absent_rows (df : DataFrame) (c : string) :
  (forall r, In r df -> product_category r <> Some c) ->
  category_rows df (Some c) = [].
Proof.
  intros H. destruct (category_rows df (Some c)) as [|r l] eqn:E; [reflexivity|].
  assert (Hin : In r (category_rows df (Some c))) by (rewrite E; left; reflexivity).
  apply category_rows_In in Hin. destruct Hin as [Hin Hc].
  destruct (H r Hin Hc).
Qed.





(** C6.  When no row of the table is filed under the category, the
    analysis returns [None] (and leaves the process as it was). *)
Theorem absent_category_no_data (argsort : list Q -> list nat)
        (png_base64 : Figure -> string) (df : DataFrame) (c : string) (w : World) :
  (forall r, In r df -> product_category r <> Some c) ->
  analyze_category_data argsort png_base64 df (Some c) w = (None, w).
Proof.
  intros H. rewrite analyze_category_data_pure.
  rewrite category_report_none; [reflexivity|].
  apply category_absent_rows. exact H.
Qed.

Lemma absent_category_no_data_witness :
  analyze_category_data Numpy.argsort_quicksort caption accessories
                        (Some "Tablets & Entertainment") idle = (None, idle).
Proof.
  apply (absent_category_no_data Numpy.argsort_quicksort caption accessories
           "Tablets & Entertainment" idle).
  intros r Hr. simpl in Hr.
  repeat (destruct Hr as [<-|Hr]; [discriminate|]). destruct Hr.
Defined.











Lemma report_of_analysis (argsort : list Q -> list nat)
      (png_base64 : Figure -> string) (df : DataFrame) (c : string) (w : World)
      (report : Report) :
  fst (analyze_category_data argsort png_base64 df (Some c) w) = Some report ->
  category_rows df (Some c) <> [] /\
  report = mkReport
          (Some c)
          (length (Pandas.unique Pandas.same (map name (category_rows df (Some c)))))
          (length (category_rows df (Some c)))
          (Pandas.mean (map reviews_rating (category_rows df (Some c))))
          (top_products_data argsort (category_rows df (Some c)))
          (worst_product_data argsort (category_rows df (Some c)))
          (png_base64 (sentiment_figure argsort (category_rows df (Some c)) (Some c)))
          (png_base64 (rating_figure argsort (category_rows df (Some c)) (Some c)))
          (dict_get DEFAULT_CATEGORY_IMAGES c "").
Proof.
  rewrite analyze_category_data_pure. cbn [fst]. intros H.
  destruct (category_rows df (Some c)) as [|r l] eqn:E.
  - rewrite category_report_none in H by exact E. discriminate.
  - assert (Hne : category_rows df (Some c) <> []) by (rewrite E; discriminate).
    rewrite (category_report_some _ _ _ _ Hne) in H.
    injection H as <-. rewrite E. split; [discriminate|reflexivity].
Qed.


Lemma unnamed_products : ~ has_product unnamed "Accessories".
Proof.
  intros [r [k [Hr [_ Hn]]]]. cbn in Hr.
  destruct Hr as [<-|[<-|[]]]; discriminate Hn.
Qed.




(** C9.  The worst product is the head of an ascending sort of its own,
    not taken out of the ranking.  In a category with fewer than four
    distinct product names the ranking lists every product; the worst
    product of the report, the entry with the least mean rating, is then
    also an entry of [top_products], with the same rating, and no entry
    there has a lower one. *)
Theorem worst_product_among_top (argsort : list Q -> list nat)
        (png_base64 : Figure -> string) (df : DataFrame) (c : string) (w : World)
        (report : Report) (worst : WorstProduct) :
  argsort_contract argsort ->
  fst (analyze_category_data argsort png_base64 df (Some c) w) = Some report ->
  length (distinct_names df c) < 4 ->
  worst_product report = Some worst ->
  length (top_products report) = length (distinct_names df c) /\
  (forall r product,
      In r df -> product_category r = Some c -> name r = Some product ->
      (wp_rating worst <= product_mean df c product)%Q) /\
  exists t,
    In t (top_products report) /\
    tp_name t = wp_name worst /\
    tp_rating t = wp_rating worst /\
    forall t', In t' (top_products report) -> (tp_rating t <= tp_rating t')%Q.
Proof.
  intros Hsort Hrep Hfew Hworst.
  apply report_of_analysis in Hrep. destruct Hrep as [Hne ->].
  cbn [top_products worst_product] in *.
  destruct (worst_product_data_some argsort Hsort _ _ Hworst)
    as [p [Hp [-> Hmin]]].
  cbn [wp_name wp_rating].
  split; [|split].
  - rewrite (top_products_data_length argsort Hsort). apply Nat.min_r. lia.
  - intros r product Hr Hc Hn.
    destruct (product_ratings_complete df c r product Hr Hc Hn) as [q [Hq Hname]].
    rewrite <- Hname, <- (proj1 (product_ratings_mean df c q Hq)).
    apply Hmin. exact Hq.
  - exists (mkTopProduct (pr_name p) (pr_rating p)
              (sentiment_summaries (category_rows df (Some c)) (pr_name p)
                                   "Positive")).
    split; [|split; [reflexivity|split; [reflexivity|]]].
    + unfold top_products_data, Pandas.head. rewrite firstn_all2.
      * apply in_map_iff. exists p. split; [reflexivity|].
        apply (Permutation_in _
                 (Permutation_sym (sort_values_permutation argsort Hsort _ _ _))).
        exact Hp.
      * rewrite (Permutation_length (sort_values_permutation argsort Hsort _ _ _)).
        rewrite product_ratings_length. lia.
    + intros t' Ht'. cbn [tp_rating].
      destruct (top_products_data_In argsort Hsort df c t' Ht')
        as [q [Hq [_ [-> _]]]].
      apply Hmin. exact Hq.
Qed.

Lemma worst_product_among_top_witness :
  exists report worst,
    fst (analyze_category_data Numpy.argsort_quicksort caption accessories
                               (Some "Accessories") idle) = Some report /\
    worst_product report = Some worst /\
    length (top_products report) = length (distinct_names accessories "Accessories") /\
    (forall r product,
        In r accessories -> product_category r = Some "Accessories" ->
        name r = Some product ->
        (wp_rating worst <= product_mean accessories "Accessories" product)%Q) /\
    exists t,
      In t (top_products report) /\
      tp_name t = wp_name worst /\
      tp_rating t = wp_rating worst /\
      forall t', In t' (top_products report) -> (tp_rating t <= tp_rating t')%Q.
Proof.
  eexists. eexists. split; [vm_compute; reflexivity|].
  split; [reflexivity|].
  apply (worst_product_among_top Numpy.argsort_quicksort caption accessories
           "Accessories" idle _ _ argsort_quicksort_contract).
  - vm_compute. reflexivity.
  - vm_compute. lia.
  - reflexivity.
Defined.




(** C4.  In a report of the analysis, the summaries kept for a product of
    [top_products] are the first five summaries, in the order of the
    table and without the missing ones, of the reviews of that product in
    the category whose sentiment is Positive; those kept for the worst
    product are the same with Negative.  Hence each list has at most five
    entries, all of them summaries of such reviews, and is empty when the
    product has no such review. *)
Theorem summaries_first_five (argsort : list Q -> list nat)
        (png_base64 : Figure -> string) (df : DataFrame) (c : string) (w : World)
        (report : Report) :
  fst (analyze_category_data argsort png_base64 df (Some c) w) = Some report ->
  (forall t, In t (top_products report) ->
             excerpts df c (tp_name t) "Positive" (positive_summaries t)) /\
  (forall worst, worst_product report = Some worst ->
                 excerpts df c (wp_name worst) "Negative"
                          (improvement_summaries worst)).
Proof.
  rewrite analyze_category_data_pure. cbn [fst]. unfold category_report.
  destruct (length (category_rows df (Some c)) =? 0); [discriminate|].
  intros H. injection H as <-. cbn [top_products worst_product]. split.
  - intros t Ht. unfold top_products_data in Ht.
    apply in_map_iff in Ht. destruct Ht as [p [<- _]].
    cbn [tp_name positive_summaries].
    rewrite sentiment_summaries_table_order. apply excerpts_of_table_order.
  - intros worst. unfold worst_product_data.
    destruct (Pandas.head 1 _) as [|p l]; [discriminate|].
    intros H. injection H as <-. cbn [wp_name improvement_summaries].
    rewrite sentiment_summaries_table_order. apply excerpts_of_table_order.
Qed.

Lemma summaries_first_five_witness :
  exists report,
    fst (analyze_category_data Numpy.argsort_quicksort caption accessories
                               (Some "Accessories") idle) = Some report /\
    (forall t, In t (top_products report) ->
               excerpts accessories "Accessories" (tp_name t) "Positive"
                        (positive_summaries t)) /\
    (forall worst, worst_product report = Some worst ->
                   excerpts accessories "Accessories" (wp_name worst) "Negative"
                            (improvement_summaries worst)).
Proof.
  eexists. split; [vm_compute; reflexivity|].
  apply (summaries_first_five Numpy.argsort_quicksort caption accessories
           "Accessories" idle).
  vm_compute. reflexivity.
Defined.

(** ** The check of the columns *)

Lemma column_known (col : string) (cols : list string) :
  existsb (String.eqb col) cols = true <-> In col cols.
Proof.
  rewrite existsb_exists. split.
  - intros [x [Hx E]]. apply String.eqb_eq in E. subst x. exact Hx.
  - intros H. exists col. split; [exact H|apply String.eqb_refl].
Qed.

(** C7.  When the table lacks a required column, [main] prints the error
    line naming the missing columns (those required columns the table does
    not have) after the line announcing the load, and returns: nothing
    else is printed, no directory or file is made, no figure is opened,
    and the rows of the table play no part. *)
Theorem missing_columns_stop_main (argsort : list Q -> list nat)
        (png_base64 : Figure -> string) (css_content js_content : string)
        (render_template : string -> list Report -> string)
        (args : Args) (df : Csv) (w : World) :
  (exists col, In col required_columns /\ ~ In col (columns df)) ->
  exists missing,
    (forall col, In col missing <->
                 In col required_columns /\ ~ In col (columns df)) /\
    main argsort png_base64 css_content js_content render_template args df w =
    (tt, mkWorld (stdout w ++ missing_columns_report args missing)
                 (directories w) (files w) (figures w)).
Proof.
  intros [col [Hreq Hmiss]].
  set (missing := filter (fun col => negb (existsb (String.eqb col) (columns df)))
                         required_columns).
  assert (Hspec : forall col, In col missing <->
                              In col required_columns /\ ~ In col (columns df)).
  { intros x. unfold missing. rewrite filter_In, negb_true_iff.
    rewrite <- not_true_iff_false, column_known. reflexivity. }
  exists missing. split; [exact Hspec|].
  unfold main. fold missing.
  destruct missing as [|m rest] eqn:E.
  - destruct (proj2 (Hspec col) (conj Hreq Hmiss)).
  - unfold bind, print, ret, missing_columns_report. cbn [stdout directories files figures].
    rewrite <- !app_assoc. reflexivity.
Qed.

Lemma missing_columns_stop_main_witness :
  exists missing,
    (forall col, In col missing <->
                 In col required_columns /\ ~ In col (columns two_columns)) /\
    main Numpy.argsort_quicksort caption "" "" (fun title _ => title)
         command_line two_columns idle =
    (tt, mkWorld (stdout idle ++ missing_columns_report command_line missing)
                 (directories idle) (files idle) (figures idle)).
Proof.
  apply (missing_columns_stop_main Numpy.argsort_quicksort caption "" ""
           (fun title _ => title) command_line two_columns idle).
  exists "reviews.rating". split.
  - simpl. auto.
  - simpl. intros [H|[H|[]]]; discriminate H.
Defined.

(** * Further properties of the analysis *)

Lemma StronglySorted_app_inv {A : Type} (R : A -> A -> Prop) (l1 l2 : list A) :
  StronglySorted R (l1 ++ l2) ->
  forall x y, In x l1 -> In y l2 -> R x y.
Proof.
  induction l1 as [|a l1 IH]; intros H x y Hx Hy; [destruct Hx|].
  simpl in H. apply StronglySorted_inv in H. destruct H as [Hs Ha].
  destruct Hx as [<-|Hx].
  - rewrite Forall_forall in Ha. apply Ha. apply in_or_app. right. exact Hy.
  - apply IH; assumption.
Qed.

Lemma NoDup_firstn {A : Type} (n : nat) (l : list A) :
  NoDup l -> NoDup (firstn n l).
Proof.
  intros H. rewrite <- (firstn_skipn n l) in H.
  exact (NoDup_app_remove_r _ _ H).
Qed.

Section Ranked.

Variable argsort : list Q -> list nat.
Hypothesis argsort_ok : argsort_contract argsort.

(** The ranking behind [top_products]: the frame of means in descending
    order. *)
Lemma ranking_facts (df : DataFrame) (c : string) :
  let ranking := Pandas.sort_values argsort pr_rating false
                   (product_ratings (category_rows df (Some c))) in
  Permutation ranking (product_ratings (category_rows df (Some c))) /\
  StronglySorted (fun a b => (pr_rating b <= pr_rating a)%Q) ranking /\
  NoDup (map pr_name ranking).
Proof.
  cbv zeta. split; [|split].
  - apply sort_values_permutation. exact argsort_ok.
  - apply sort_values_descending_sorted. exact argsort_ok.
  - eapply Permutation_NoDup.
    + symmetry. apply Permutation_map.
      apply sort_values_permutation. exact argsort_ok.
    + rewrite product_ratings_names. apply group_keys_NoDup.
Qed.

Lemma top_products_names (category_df : DataFrame) :
  map tp_name (top_products_data argsort category_df) =
  map pr_name (firstn 3 (Pandas.sort_values argsort pr_rating false
                           (product_ratings category_df))).
Proof.
  unfold top_products_data, Pandas.head. rewrite map_map. reflexivity.
Qed.

Lemma top_products_ratings (category_df : DataFrame) :
  map tp_rating (top_products_data argsort category_df) =
  map pr_rating (firstn 3 (Pandas.sort_values argsort pr_rating false
                             (product_ratings category_df))).
Proof.
  unfold top_products_data, Pandas.head. rewrite map_map. reflexivity.
Qed.

End Ranked.

(** ** Means and sums *)

Lemma mean_denominator (l : list Z) :
  l <> [] -> Z.pos (Pos.of_nat (length l)) = Z.of_nat (length l).
Proof.
  intros H. rewrite <- positive_nat_Z, Nat2Pos.id; [reflexivity|].
  destruct l; [contradiction|discriminate].
Qed.

Lemma sum_affine {A : Type} (f : A -> Z) (a d : Z) (l : list A) :
  fold_right Z.add 0%Z (map (fun r => f r * d - a)%Z l) =
  (fold_right Z.add 0%Z (map f l) * d - a * Z.of_nat (length l))%Z.
Proof.
  induction l as [|x l IH]; [simpl; lia|].
  cbn [map fold_right length]. rewrite IH, Nat2Z.inj_succ. lia.
Qed.

(** A mean is at least [q] when the distances of its terms to [q] add up
    to something not negative, and at most [q] likewise. *)
Lemma mean_lower {A : Type} (f : A -> Z) (q : Q) (l : list A) :
  l <> [] ->
  ((q <= Pandas.mean (map f l))%Q <->
   (0 <= fold_right Z.add 0 (map (fun r => f r * QDen q - Qnum q) l))%Z).
Proof.
  intros Hne. unfold Pandas.mean, Qle. cbn [Qnum Qden].
  rewrite mean_denominator by (destruct l; [contradiction|discriminate]).
  rewrite sum_affine, length_map. lia.
Qed.

Lemma mean_upper {A : Type} (f : A -> Z) (q : Q) (l : list A) :
  l <> [] ->
  ((Pandas.mean (map f l) <= q)%Q <->
   (0 <= fold_right Z.add 0 (map (fun r => (- f r) * QDen q - (- Qnum q)) l))%Z).
Proof.
  intros Hne. unfold Pandas.mean, Qle. cbn [Qnum Qden].
  rewrite mean_denominator by (destruct l; [contradiction|discriminate]).
  rewrite (sum_affine (fun r => - f r)%Z), length_map.
  assert (E : fold_right Z.add 0%Z (map (fun r => (- f r)%Z) l) =
              (- fold_right Z.add 0 (map f l))%Z).
  { clear. induction l as [|x l IH]; [reflexivity|]. cbn [map fold_right]. lia. }
  rewrite E. lia.
Qed.

Lemma sum_nonnegative {A : Type} (g : A -> Z) (l : list A) :
  (forall r, In r l -> 0 <= g r)%Z ->
  (0 <= fold_right Z.add 0 (map g l))%Z.
Proof.
  induction l as [|x l IH]; intros H; [simpl; lia|].
  cbn [map fold_right].
  pose proof (H x (or_introl eq_refl)).
  assert (0 <= fold_right Z.add 0 (map g l))%Z by (apply IH; intros; apply H; right; assumption).
  lia.
Qed.

Lemma mean_within (l : list Z) (lo hi : Z) :
  l <> [] -> (forall z, In z l -> lo <= z <= hi)%Z ->
  (inject_Z lo <= Pandas.mean l <= inject_Z hi)%Q.
Proof.
  intros Hne Hall. rewrite <- (map_id l). split.
  - apply mean_lower; [exact Hne|]. apply sum_nonnegative.
    intros z Hz. specialize (Hall z Hz). simpl. lia.
  - apply mean_upper; [exact Hne|]. apply sum_nonnegative.
    intros z Hz. specialize (Hall z Hz). simpl. lia.
Qed.

Section RankingProperties.

Variable argsort : list Q -> list nat.
Hypothesis argsort_ok : argsort_contract argsort.
Variable png_base64 : Figure -> string.


End RankingProperties.



(** X2.  A product of the category that is not listed in [top_products]
    has a mean rating not above the rating of any product listed there. *)
Theorem unlisted_products_rank_lower (argsort : list Q -> list nat)
        (png_base64 : Figure -> string) (df : DataFrame) (c : string) (w : World)
        (report : Report) (r : Row) (product : string) (t : TopProduct) :
  argsort_contract argsort ->
  fst (analyze_category_data argsort png_base64 df (Some c) w) = Some report ->
  In r df -> product_category r = Some c -> name r = Some product ->
  ~ In product (map tp_name (top_products report)) ->
  In t (top_products report) ->
  (product_mean df c product <= tp_rating t)%Q.
Proof.
  intros Hsort Hrep Hr Hc Hn Hout Ht.
  apply report_of_analysis in Hrep. destruct Hrep as [Hne ->].
  cbn [top_products] in *.
  destruct (ranking_facts argsort Hsort df c) as [Hperm [Hsorted Hnodup]].
  destruct (product_ratings_complete df c r product Hr Hc Hn) as [q [Hq Hname]].
  rewrite <- Hname, <- (proj1 (product_ratings_mean df c q Hq)).
  rewrite top_products_names in Hout.
  unfold top_products_data, Pandas.head in Ht.
  apply in_map_iff in Ht. destruct Ht as [p [<- Hp]]. cbn [tp_rating].
  set (ranking := Pandas.sort_values argsort pr_rating false
                    (product_ratings (category_rows df (Some c)))) in *.
  apply (Permutation_in _ (Permutation_sym Hperm)) in Hq.
  rewrite <- (firstn_skipn 3 ranking) in Hq, Hsorted.
  apply in_app_or in Hq. destruct Hq as [Hq|Hq].
  - exfalso. apply Hout. rewrite <- Hname. apply in_map. exact Hq.
  - exact (StronglySorted_app_inv _ _ _ Hsorted p q Hp Hq).
Qed.

Lemma unlisted_products_rank_lower_witness :
  exists report,
    fst (analyze_category_data Numpy.argsort_quicksort caption eighteen_products
                               (Some "Accessories") idle) = Some report /\
    forall t, In t (top_products report) ->
              (product_mean eighteen_products "Accessories" "p01" <= tp_rating t)%Q.
Proof.
  eexists. split; [vm_compute; reflexivity|].
  intros t Ht.
  eapply (unlisted_products_rank_lower Numpy.argsort_quicksort caption
            eighteen_products "Accessories" idle _
            (review "p01" "Accessories" 1 "Neutral" None) "p01" t
            argsort_quicksort_contract).
  - vm_compute. reflexivity.
  - left. reflexivity.
  - reflexivity.
  - reflexivity.
  - cbn. intros [H|[H|[H|[]]]]; discriminate H.
  - exact Ht.
Defined.

(** X3.  No product is listed twice in [top_products]. *)
Theorem top_products_distinct (argsort : list Q -> list nat)
        (png_base64 : Figure -> string) (df : DataFrame) (c : string) (w : World)
        (report : Report) :
  argsort_contract argsort ->
  fst (analyze_category_data argsort png_base64 df (Some c) w) = Some report ->
  NoDup (map tp_name (top_products report)).
Proof.
  intros Hsort Hrep.
  apply report_of_analysis in Hrep. destruct Hrep as [Hne ->].
  cbn [top_products]. rewrite top_products_names, <- firstn_map.
  apply NoDup_firstn. apply (ranking_facts argsort Hsort df c).
Qed.

Lemma top_products_distinct_witness :
  exists report,
    fst (analyze_category_data Numpy.argsort_quicksort caption eighteen_products
                               (Some "Accessories") idle) = Some report /\
    NoDup (map tp_name (top_products report)).
Proof.
  eexists. split; [vm_compute; reflexivity|].
  apply (top_products_distinct Numpy.argsort_quicksort caption
           eighteen_products "Accessories" idle _ argsort_quicksort_contract).
  vm_compute. reflexivity.
Defined.

Lemma NoDup_present {A : Type} (l : list A) : NoDup l -> NoDup (map Some l).
Proof.
  induction 1 as [|x l Hx _ IH]; cbn [map]; constructor; [|exact IH].
  intros Hin. apply in_map_iff in Hin. destruct Hin as [y [E Hy]].
  injection E as ->. exact (Hx Hy).
Qed.

Lemma unique_names_count (rows : DataFrame) :
  length (Pandas.unique Pandas.same (map name rows)) =
  length (nodup string_dec (Pandas.dropna (map name rows)))
  + (if existsb (fun r => match name r with Some _ => false | None => true end) rows
     then 1 else 0).
Proof.
  set (cells := Pandas.unique Pandas.same (map name rows)).
  assert (Hnd : NoDup cells) by (apply unique_NoDup, same_eq).
  assert (Hin : forall x, In x cells <-> In x (map name rows))
    by (intros x; apply unique_In, same_eq).
  assert (Hmissing :
            existsb (fun r => match name r with Some _ => false | None => true end)
                    rows = true <-> In None (map name rows)).
  { rewrite existsb_exists, in_map_iff. split.
    - intros [r [Hr Hn]]. exists r. split; [|exact Hr].
      destruct (name r); [discriminate|reflexivity].
    - intros [r [Hn Hr]]. exists r. split; [exact Hr|]. rewrite Hn. reflexivity. }
  destruct (existsb (fun r => match name r with Some _ => false | None => true end)
                    rows) as [|] eqn:Emissing.
  - (* some name is missing *)
    transitivity (length (map Some (nodup string_dec (Pandas.dropna (map name rows)))
                          ++ [None])).
    + apply Permutation_length, NoDup_Permutation; [exact Hnd| |].
      * apply NoDup_app.
        -- apply NoDup_present, NoDup_nodup.
        -- constructor; [intros []|constructor].
        -- intros x Hx Hx'. apply in_map_iff in Hx. destruct Hx as [k [<- _]].
           destruct Hx' as [H|[]]. discriminate H.
      * intros x. rewrite Hin, in_app_iff. split.
        -- intros Hx. destruct x as [k|].
           ++ left. apply in_map, nodup_In, dropna_In. exact Hx.
           ++ right. left. reflexivity.
        -- intros [Hx|[<-|[]]].
           ++ apply in_map_iff in Hx. destruct Hx as [k [<- Hk]].
              apply nodup_In, dropna_In in Hk. exact Hk.
           ++ apply Hmissing. reflexivity.
    + rewrite length_app, length_map. reflexivity.
  - (* every row has a name *)
    rewrite Nat.add_0_r.
    rewrite <- (length_map Some (nodup string_dec (Pandas.dropna (map name rows)))).
    apply Permutation_length, NoDup_Permutation; [exact Hnd| |].
    + apply NoDup_present, NoDup_nodup.
    + intros x. rewrite Hin. split.
      * intros Hx. destruct x as [k|].
        -- apply in_map, nodup_In, dropna_In. exact Hx.
        -- apply Hmissing in Hx. discriminate Hx.
      * intros Hx. apply in_map_iff in Hx. destruct Hx as [k [<- Hk]].
        apply nodup_In, dropna_In in Hk. exact Hk.
Qed.

(** X4.  [product_count] is the number of distinct product names among
    the rows of the category, plus one when some row of the category has
    no product name (the missing name counts as a product); it is at
    least 1 and at most [review_count]. *)
Theorem product_count_distinct_names (argsort : list Q -> list nat)
        (png_base64 : Figure -> string) (df : DataFrame) (c : string) (w : World)
        (report : Report) :
  fst (analyze_category_data argsort png_base64 df (Some c) w) = Some report ->
  product_count report =
    length (distinct_names df c) + (if lacks_name df c then 1 else 0) /\
  1 <= product_count report <= review_count report.
Proof.
  intros Hrep.
  apply report_of_analysis in Hrep. destruct Hrep as [Hne ->].
  cbn [product_count review_count]. split; [|split].
  - rewrite unique_names_count. f_equal.
    + apply Permutation_length, NoDup_Permutation; try apply NoDup_nodup.
      intros k. rewrite nodup_In, dropna_In, distinct_names_In, in_map_iff.
      split.
      * intros [r [Hn Hr]]. apply category_rows_In in Hr. exists r. tauto.
      * intros [r [Hr [Hc Hn]]]. exists r. split; [exact Hn|].
        apply category_rows_In. tauto.
    + unfold lacks_name. rewrite category_rows_holds.
      replace (existsb _ (filter _ df))
        with (existsb (fun r => holds c (product_category r)
                                && match name r with
                                   | Some _ => false
                                   | None => true
                                   end) df); [reflexivity|].
      clear. induction df as [|r df IH]; [reflexivity|].
      cbn [existsb filter].
      destruct (holds c (product_category r)); cbn [andb existsb orb];
        rewrite IH; reflexivity.
  - destruct (category_rows df (Some c)) as [|r l]; [contradiction|].
    cbn [map Pandas.unique length]. lia.
  - rewrite <- (length_map name (category_rows df (Some c))).
    apply NoDup_incl_length; [apply unique_NoDup, same_eq|].
    intros k Hk. exact (proj1 (unique_In _ same_eq _ _) Hk).
Qed.

Lemma product_count_distinct_names_witness :
  exists report,
    fst (analyze_category_data Numpy.argsort_quicksort caption unnamed
                               (Some "Accessories") idle) = Some report /\
    product_count report = 0 + 1 /\
    1 <= product_count report <= review_count report.
Proof.
  eexists. split; [vm_compute; reflexivity|].
  apply (product_count_distinct_names Numpy.argsort_quicksort caption
           unnamed "Accessories" idle).
  vm_compute. reflexivity.
Defined.

Lemma product_rating_within (df : DataFrame) (c : string) (lo hi : Z)
      (p : ProductRating) :
  (forall r, In r df -> product_category r = Some c ->
             (lo <= reviews_rating r <= hi)%Z) ->
  In p (product_ratings (category_rows df (Some c))) ->
  (inject_Z lo <= pr_rating p <= inject_Z hi)%Q.
Proof.
  intros Hall Hp.
  destruct (product_ratings_mean df c p Hp) as [-> [r [Hr [Hc Hn]]]].
  unfold product_mean. apply mean_within.
  - intros Hnil. apply map_eq_nil in Hnil.
    assert (H : In r (product_rows df c (pr_name p))).
    { apply filter_In. split; [exact Hr|].
      apply andb_true_intro. split; apply holds_eq; assumption. }
    rewrite Hnil in H. exact H.
  - intros z Hz. apply in_map_iff in Hz. destruct Hz as [r' [<- Hr']].
    apply filter_In in Hr'. destruct Hr' as [Hin Hb].
    apply andb_prop in Hb. destruct Hb as [Hb _].
    apply Hall; [exact Hin|]. apply holds_eq. exact Hb.
Qed.

(** X5.  When every rating of the category lies between two bounds, so do
    the average rating of the report, the rating of each product of
    [top_products] and the rating of the worst product. *)
Theorem ratings_within_bounds (argsort : list Q -> list nat)
        (png_base64 : Figure -> string) (df : DataFrame) (c : string) (w : World)
        (report : Report) (lo hi : Z) :
  argsort_contract argsort ->
  fst (analyze_category_data argsort png_base64 df (Some c) w) = Some report ->
  (forall r, In r df -> product_category r = Some c ->
             (lo <= reviews_rating r <= hi)%Z) ->
  (inject_Z lo <= avg_rating report <= inject_Z hi)%Q /\
  (forall t, In t (top_products report) ->
             (inject_Z lo <= tp_rating t <= inject_Z hi)%Q) /\
  (forall worst, worst_product report = Some worst ->
                 (inject_Z lo <= wp_rating worst <= inject_Z hi)%Q).
Proof.
  intros Hsort Hrep Hall.
  apply report_of_analysis in Hrep. destruct Hrep as [Hne ->].
  cbn [avg_rating top_products worst_product].
  split; [|split].
  - apply mean_within.
    + intros Hnil. apply map_eq_nil in Hnil. contradiction.
    + intros z Hz. apply in_map_iff in Hz. destruct Hz as [r [<- Hr]].
      apply category_rows_In in Hr. destruct Hr as [Hr Hc].
      apply Hall; assumption.
  - intros t Ht.
    destruct (top_products_data_In argsort Hsort df c t Ht) as [p [Hp [_ [-> _]]]].
    exact (product_rating_within df c lo hi p Hall Hp).
  - intros worst Hworst.
    destruct (worst_product_data_some argsort Hsort _ _ Hworst) as [p [Hp [-> _]]].
    cbn [wp_rating].
    exact (product_rating_within df c lo hi p Hall Hp).
Qed.

Lemma ratings_within_bounds_witness :
  exists report,
    fst (analyze_category_data Numpy.argsort_quicksort caption accessories
                               (Some "Accessories") idle) = Some report /\
    (inject_Z 1 <= avg_rating report <= inject_Z 5)%Q /\
    (forall t, In t (top_products report) ->
               (inject_Z 1 <= tp_rating t <= inject_Z 5)%Q) /\
    (forall worst, worst_product report = Some worst ->
                   (inject_Z 1 <= wp_rating worst <= inject_Z 5)%Q).
Proof.
  eexists. split; [vm_compute; reflexivity|].
  apply (ratings_within_bounds Numpy.argsort_quicksort caption accessories
           "Accessories" idle _ 1%Z 5%Z argsort_quicksort_contract).
  - vm_compute. reflexivity.
  - intros r Hr _. simpl in Hr.
    destruct Hr as [<-|[<-|[<-|[<-|[<-|[<-|[]]]]]]]; simpl; lia.
Defined.

(** ** The two distributions *)

Lemma count_positive {A : Type} (eqb : A -> A -> bool)
      (eqb_eq : forall a b, eqb a b = true <-> a = b) (k : A) (l : list A) :
  In k l <-> 0 < Pandas.count eqb k l.
Proof.
  unfold Pandas.count. split.
  - intros H.
    assert (Hin : In k (filter (eqb k) l)).
    { apply filter_In. split; [exact H|]. apply eqb_eq. reflexivity. }
    destruct (filter (eqb k) l); [destruct Hin|simpl; lia].
  - intros H. destruct (filter (eqb k) l) as [|x t] eqn:E; [simpl in H; lia|].
    assert (Hin : In x (filter (eqb k) l)) by (rewrite E; left; reflexivity).
    apply filter_In in Hin. destruct Hin as [Hin Hx].
    apply eqb_eq in Hx. subst x. exact Hin.
Qed.

Lemma count_in_category {A : Type} (eqb : A -> A -> bool) (f : Row -> option A)
      (k : A) (df : DataFrame) (c : string) :
  Pandas.count eqb k (Pandas.dropna (map f (category_rows df (Some c)))) =
  rows_where (fun r => match f r with Some x => eqb k x | None => false end) df c.
Proof.
  unfold Pandas.count, rows_where. rewrite category_rows_holds, <- filter_twice.
  induction (filter (fun r => holds c (product_category r)) df) as [|r l IH];
    [reflexivity|].
  unfold Pandas.dropna in *. cbn [map flat_map filter].
  destruct (f r) as [x|]; cbn [app filter]; [|exact IH].
  destruct (eqb k x); cbn [length]; rewrite IH; reflexivity.
Qed.

Section DistributionEntries.

Variable argsort : list Q -> list nat.
Hypothesis argsort_ok : argsort_contract argsort.

Lemma value_counts_In {A : Type} (eqb : A -> A -> bool)
      (eqb_eq : forall a b, eqb a b = true <-> a = b)
      (l : list (option A)) (k : A) (n : nat) :
  In (k, n) (Pandas.value_counts argsort eqb l) <->
  0 < n /\ n = Pandas.count eqb k (Pandas.dropna l).
Proof.
  pose proof (value_counts_permutation argsort argsort_ok eqb l) as Hperm.
  split.
  - intros H. apply (Permutation_in _ Hperm) in H.
    apply in_map_iff in H. destruct H as [k' [E Hk]].
    injection E as -> <-. split; [|reflexivity].
    apply (count_positive eqb eqb_eq). apply (unique_In eqb eqb_eq). exact Hk.
  - intros [Hpos ->]. apply (Permutation_in _ (Permutation_sym Hperm)).
    apply in_map_iff. exists k. split; [reflexivity|].
    apply (unique_In eqb eqb_eq). apply (count_positive eqb eqb_eq). exact Hpos.
Qed.

Lemma value_counts_NoDup {A : Type} (eqb : A -> A -> bool)
      (eqb_eq : forall a b, eqb a b = true <-> a = b) (l : list (option A)) :
  NoDup (map fst (Pandas.value_counts argsort eqb l)).
Proof.
  eapply Permutation_NoDup.
  - symmetry. apply value_counts_keys. exact argsort_ok.
  - apply unique_NoDup. exact eqb_eq.
Qed.

Lemma value_counts_descending {A : Type} (eqb : A -> A -> bool)
      (l : list (option A)) :
  descending_counts (Pandas.value_counts argsort eqb l).
Proof.
  unfold descending_counts, Pandas.value_counts.
  eapply StronglySorted_weaken;
    [|apply sort_values_descending_sorted; exact argsort_ok].
  intros a b H. cbv beta in H.
  rewrite <- Zle_Qle in H. lia.
Qed.

Lemma sort_index_In {B : Type} (s : list (Z * B)) (e : Z * B) :
  In e (Pandas.sort_index argsort s) <-> In e s.
Proof.
  unfold Pandas.sort_index.
  pose proof (sort_values_permutation argsort argsort_ok
                (fun e : Z * B => inject_Z (fst e)) true s) as Hperm.
  split; intros H.
  - exact (Permutation_in _ Hperm H).
  - exact (Permutation_in _ (Permutation_sym Hperm) H).
Qed.

End DistributionEntries.

Lemma rows_where_ext (p q : Row -> bool) (df : DataFrame) (c : string) :
  (forall r, p r = q r) -> rows_where p df c = rows_where q df c.
Proof.
  intros H. unfold rows_where. f_equal. apply filter_ext.
  intros r. rewrite H. reflexivity.
Qed.

(** X7.  The sentiment distribution of a category has an entry for a label
    exactly when some row of the category carries it, with the number of
    those rows as its count; no label is listed twice, and the entries
    come by descending count. *)
Theorem sentiment_distribution_entries (argsort : list Q -> list nat)
        (df : DataFrame) (c : string) :
  argsort_contract argsort ->
  (forall label n,
      In (label, n) (sentiment_counts argsort (category_rows df (Some c))) <->
      0 < n /\
      n = rows_where (fun r => holds label (rating_sentiment r)) df c) /\
  NoDup (map fst (sentiment_counts argsort (category_rows df (Some c)))) /\
  descending_counts (sentiment_counts argsort (category_rows df (Some c))).
Proof.
  intros Hsort. unfold sentiment_counts. split; [|split].
  - intros label n.
    rewrite (value_counts_In argsort Hsort String.eqb String.eqb_eq).
    rewrite count_in_category.
    rewrite (rows_where_ext _ (fun r => holds label (rating_sentiment r)));
      [reflexivity|].
    intros r. unfold holds. destruct (rating_sentiment r) as [text|];
      [apply String.eqb_sym|reflexivity].
  - apply value_counts_NoDup; [exact Hsort|exact String.eqb_eq].
  - apply value_counts_descending. exact Hsort.
Qed.

Lemma sentiment_distribution_entries_witness :
  (forall label n,
      In (label, n) (sentiment_counts Numpy.argsort_quicksort
                       (category_rows accessories (Some "Accessories"))) <->
      0 < n /\
      n = rows_where (fun r => holds label (rating_sentiment r))
                     accessories "Accessories") /\
  NoDup (map fst (sentiment_counts Numpy.argsort_quicksort
                    (category_rows accessories (Some "Accessories")))) /\
  descending_counts (sentiment_counts Numpy.argsort_quicksort
                       (category_rows accessories (Some "Accessories"))).
Proof.
  exact (sentiment_distribution_entries Numpy.argsort_quicksort accessories
           "Accessories" argsort_quicksort_contract).
Defined.

(** X8.  The rating distribution of a category has an entry for a rating
    exactly when some row of the category carries it, with the number of
    those rows as its count. *)
Theorem rating_distribution_entries (argsort : list Q -> list nat)
        (df : DataFrame) (c : string) :
  argsort_contract argsort ->
  forall rating n,
    In (rating, n) (rating_counts argsort (category_rows df (Some c))) <->
    0 < n /\
    n = rows_where (fun r => Z.eqb rating (reviews_rating r)) df c.
Proof.
  intros Hsort rating n. unfold rating_counts.
  rewrite (sort_index_In argsort Hsort).
  rewrite (value_counts_In argsort Hsort Z.eqb Z.eqb_eq).
  rewrite (count_in_category Z.eqb (fun r => Some (reviews_rating r))).
  reflexivity.
Qed.

Lemma rating_distribution_entries_witness :
  In (5%Z, 2) (rating_counts Numpy.argsort_quicksort
                 (category_rows accessories (Some "Accessories"))) <->
  0 < 2 /\
  2 = rows_where (fun r => Z.eqb 5 (reviews_rating r)) accessories "Accessories".
Proof.
  exact (rating_distribution_entries Numpy.argsort_quicksort accessories
           "Accessories" argsort_quicksort_contract 5%Z 2).
Defined.

(** ** The loop over the categories *)

Lemma filter_implied {A : Type} (p keep : A -> bool) (l : list A) :
  (forall x, In x l -> p x = true -> keep x = true) ->
  filter p (filter keep l) = filter p l.
Proof.
  intros H. rewrite filter_twice. apply filter_ext_in.
  intros x Hx. destruct (p x) eqn:E.
  - rewrite (H x Hx E). reflexivity.
  - apply andb_false_r.
Qed.







Section Loop.

Variable argsort : list Q -> list nat.
Variable png_base64 : Figure -> string.



End Loop.

(** X9.  Rows of other categories do not matter to the analysis of a
    category: dropping any of them from the table changes neither the
    result nor the process state. *)
Theorem other_categories_irrelevant (argsort : list Q -> list nat)
        (png_base64 : Figure -> string) (df : DataFrame) (c : string)
        (keep : Row -> bool) (w : World) :
  (forall r, In r df -> product_category r = Some c -> keep r = true) ->
  analyze_category_data argsort png_base64 (filter keep df) (Some c) w =
  analyze_category_data argsort png_base64 df (Some c) w.
Proof.
  intros Hkeep. rewrite !analyze_category_data_pure.
  unfold category_report.
  assert (E : category_rows (filter keep df) (Some c) = category_rows df (Some c)).
  { apply filter_implied. intros r Hr Hc. apply Hkeep; [exact Hr|].
    rewrite eq_holds in Hc. apply holds_eq. exact Hc. }
  rewrite E. reflexivity.
Qed.

Lemma other_categories_irrelevant_witness :
  analyze_category_data Numpy.argsort_quicksort caption
    (filter (fun r => holds "Accessories" (product_category r)) accessories)
    (Some "Accessories") idle =
  analyze_category_data Numpy.argsort_quicksort caption accessories
    (Some "Accessories") idle.
Proof.
  apply (other_categories_irrelevant Numpy.argsort_quicksort caption accessories
           "Accessories"
           (fun r => holds "Accessories" (product_category r)) idle).
  intros r _ Hc. apply holds_eq. exact Hc.
Defined.





(** * The files and directories of a report *)

(** ** Paths *)

Lemma append_assoc (p q r : string) : (p +++ q) +++ r = p +++ q +++ r.
Proof.
  induction p as [|a p IH]; [reflexivity|]. cbn [String.append].
  rewrite IH. reflexivity.
Qed.

Lemma append_empty (p : string) : p +++ "" = p.
Proof.
  induction p as [|a p IH]; [reflexivity|]. cbn [String.append].
  rewrite IH. reflexivity.
Qed.

Lemma append_cancel (p x y : string) : p +++ x = p +++ y -> x = y.
Proof.
  induction p as [|a p IH]; intros H; [exact H|].
  cbn [String.append] in H. injection H as H. apply IH. exact H.
Qed.

Lemma append_not_empty (p q : string) : q <> "" -> p +++ q <> "".
Proof.
  intros Hq H. destruct p; [exact (Hq H)|discriminate H].
Qed.

(** The last character of a string that ends with a given one. *)
Lemma last_character_append (p q : string) :
  q <> "" ->
  substring (String.length (p +++ q) - 1) 1 (p +++ q) =
  substring (String.length q - 1) 1 q.
Proof.
  intros Hq. induction p as [|a p IH]; [reflexivity|].
  cbn [String.append String.length].
  assert (Hlen : String.length (p +++ q) <> 0).
  { destruct (p +++ q) eqn:E; [|discriminate].
    exfalso. exact (append_not_empty p q Hq E). }
  destruct (String.length (p +++ q)) as [|n] eqn:E; [contradiction|].
  cbn [Nat.sub substring]. cbn [Nat.sub] in IH.
  rewrite Nat.sub_0_r in IH. exact IH.
Qed.

(** Joining to a path that ends with a name puts a slash in between. *)
Lemma path_join_name (p q b : string) :
  q <> "" ->
  String.eqb (substring (String.length q - 1) 1 q) "/" = false ->
  Os.path_join (p +++ q) b = p +++ q +++ "/" +++ b.
Proof.
  intros Hq Hlast. unfold Os.path_join.
  destruct (String.eqb_spec (p +++ q) "") as [E|_];
    [exfalso; exact (append_not_empty p q Hq E)|].
  rewrite (last_character_append p q Hq), Hlast.
  apply append_assoc.
Qed.

(** Where the directories and the files of a report are, from the output
    directory on: [sep] is empty when the output directory ends with a
    slash, and a slash otherwise. *)
Lemma report_layout (output_dir : string) :
  output_dir <> "" ->
  exists sep,
    (sep = "" \/ sep = "/") /\
    assets_of output_dir = output_dir +++ sep +++ "assets" /\
    report_directories output_dir =
      [ output_dir +++ "";
        output_dir +++ sep +++ "assets";
        output_dir +++ sep +++ "assets/css";
        output_dir +++ sep +++ "assets/js";
        output_dir +++ sep +++ "assets/img" ] /\
    style_path output_dir = output_dir +++ sep +++ "assets/css/style.css" /\
    script_path output_dir = output_dir +++ sep +++ "assets/js/script.js" /\
    index_path output_dir = output_dir +++ sep +++ "index.html".
Proof.
  intros Hd.
  set (sep := if String.eqb (substring (String.length output_dir - 1) 1 output_dir) "/"
              then "" else "/").
  assert (Hjoin : forall b, Os.path_join output_dir b = output_dir +++ sep +++ b).
  { intros b. unfold Os.path_join, sep.
    destruct (String.eqb_spec output_dir "") as [E|_]; [contradiction|].
    destruct (String.eqb (substring (String.length output_dir - 1) 1 output_dir) "/");
      reflexivity. }
  assert (Hassets : assets_of output_dir = (output_dir +++ sep) +++ "assets").
  { unfold assets_of. rewrite Hjoin. symmetry. apply append_assoc. }
  assert (Hin : forall b, Os.path_join (assets_of output_dir) b =
                          output_dir +++ sep +++ "assets" +++ "/" +++ b).
  { intros b. rewrite Hassets.
    rewrite (path_join_name (output_dir +++ sep) "assets" b);
      [apply append_assoc|discriminate|reflexivity]. }
  assert (Hfile : forall d f,
             String.eqb (substring (String.length ("assets/" +++ d) - 1) 1
                                   ("assets/" +++ d)) "/" = false ->
             Os.path_join (Os.path_join (assets_of output_dir) d) f =
             output_dir +++ sep +++ ("assets/" +++ d) +++ "/" +++ f).
  { intros d f Hlast. rewrite Hin.
    replace (output_dir +++ sep +++ "assets" +++ "/" +++ d)
      with ((output_dir +++ sep) +++ ("assets/" +++ d))
      by (rewrite append_assoc; reflexivity).
    rewrite (path_join_name (output_dir +++ sep) ("assets/" +++ d) f);
      [apply append_assoc|discriminate|exact Hlast]. }
  exists sep. split; [unfold sep; destruct (String.eqb _ "/"); auto|].
  split; [rewrite Hassets; apply append_assoc|].
  split; [|split; [|split]].
  - unfold report_directories. rewrite !Hin, Hassets, append_assoc, append_empty.
    reflexivity.
  - unfold style_path. rewrite (Hfile "css" "style.css" eq_refl). reflexivity.
  - unfold script_path. rewrite (Hfile "js" "script.js" eq_refl). reflexivity.
  - unfold index_path. apply Hjoin.
Qed.

(** ** Creating the directories *)

Lemma report_paths_distinct (output_dir : string) :
  output_dir <> "" ->
  NoDup (report_directories output_dir
         ++ [style_path output_dir; script_path output_dir; index_path output_dir]).
Proof.
  intros Hd.
  destruct (report_layout output_dir Hd)
    as [sep [Hsep [_ [-> [-> [-> ->]]]]]].
  assert (H : forall l, NoDup l -> NoDup (map (String.append output_dir) l)).
  { induction l as [|x l IH]; intros Hl; [constructor|].
    inversion Hl as [|? ? Hx Hl']; subst. cbn [map]. constructor.
    - intros Hin. apply in_map_iff in Hin. destruct Hin as [y [E Hy]].
      apply append_cancel in E. subst y. exact (Hx Hy).
    - apply IH. exact Hl'. }
  apply (H [ ""; sep +++ "assets"; sep +++ "assets/css"; sep +++ "assets/js";
             sep +++ "assets/img"; sep +++ "assets/css/style.css";
             sep +++ "assets/js/script.js"; sep +++ "index.html" ]).
  destruct Hsep as [-> | ->]; cbn [String.append];
    repeat (constructor; [cbn [In]; intuition discriminate|]); constructor.
Qed.

Lemma path_exists_added (p : string) (w0 : World) (printed : list string)
      (added : list string) :
  ~ In p added ->
  fst (Os.path_exists p (mkWorld (stdout w0 ++ printed) (directories w0 ++ added)
                                 (files w0) (figures w0))) =
  fst (Os.path_exists p w0).
Proof.
  intros Hp. unfold Os.path_exists. cbn [fst directories files].
  rewrite existsb_app.
  assert (E : existsb (String.eqb p) added = false).
  { apply not_true_is_false. intros H. apply existsb_exists in H.
    destruct H as [x [Hx Hpx]]. apply String.eqb_eq in Hpx. subst x.
    exact (Hp Hx). }
  rewrite E, orb_false_r. reflexivity.
Qed.

Lemma make_if_missing_step (dir : string) (announce : option string)
      (w0 : World) (printed added : list string) (w : World) :
  w = mkWorld (stdout w0 ++ printed) (directories w0 ++ added)
              (files w0) (figures w0) ->
  ~ In dir added ->
  make_if_missing dir announce w =
  (tt, mkWorld
         (stdout w0 ++ printed ++
            (if fst (Os.path_exists dir w0) then []
             else match announce with Some line => [line] | None => [] end))
         (directories w0 ++ added ++
            (if fst (Os.path_exists dir w0) then [] else [dir]))
         (files w0) (figures w0)).
Proof.
  intros -> Hdir. unfold make_if_missing, bind.
  pose proof (path_exists_added dir w0 printed added Hdir) as E.
  destruct (Os.path_exists dir (mkWorld _ _ _ _)) as [known w'] eqn:Ew.
  assert (Hw' : w' = mkWorld (stdout w0 ++ printed) (directories w0 ++ added)
                             (files w0) (figures w0)).
  { unfold Os.path_exists in Ew. injection Ew as _ <-. reflexivity. }
  cbn [fst] in E. subst known w'.
  destruct (fst (Os.path_exists dir w0)).
  - rewrite !app_nil_r. reflexivity.
  - destruct announce as [line|]; unfold Os.makedirs, print, ret;
      cbn [stdout directories files figures];
      rewrite <- ?app_assoc, ?app_nil_r; reflexivity.
Qed.

Lemma in_added (p q : string) (known : bool) (added : list string) :
  In p (added ++ (if known then [] else [q])) -> In p added \/ p = q.
Proof.
  intros H. apply in_app_or in H. destruct H as [H|H]; [left; exact H|].
  destruct known; [destruct H|]. destruct H as [<-|[]]. right. reflexivity.
Qed.

Lemma world_eta (w : World) :
  w = mkWorld (stdout w ++ []) (directories w ++ []) (files w) (figures w).
Proof. destruct w. cbn. rewrite !app_nil_r. reflexivity. Qed.

(** The process state [create_output_directory] leaves behind. *)
Lemma create_output_directory_world (output_dir : string) (w : World) :
  output_dir <> "" ->
  create_output_directory output_dir w =
  ((assets_of output_dir,
    Os.path_join (assets_of output_dir) "css",
    Os.path_join (assets_of output_dir) "js",
    Os.path_join (assets_of output_dir) "img"),
   mkWorld (stdout w ++ created_lines output_dir w)
           (directories w
            ++ filter (fun p => negb (fst (Os.path_exists p w)))
                      (report_directories output_dir))
           (files w) (figures w)).
Proof.
  intros Hd.
  pose proof (report_paths_distinct output_dir Hd) as Hnd.
  apply NoDup_app_remove_r in Hnd. unfold report_directories in Hnd.
  fold (assets_of output_dir) in *.
  set (assets := assets_of output_dir) in *.
  set (css := Os.path_join assets "css") in *.
  set (js := Os.path_join assets "js") in *.
  set (img := Os.path_join assets "img") in *.
  inversion Hnd as [|? ? H1 Hnd1]; subst.
  inversion Hnd1 as [|? ? H2 Hnd2]; subst.
  inversion Hnd2 as [|? ? H3 Hnd3]; subst.
  inversion Hnd3 as [|? ? H4 _]; subst.
  cbn [In] in H1, H2, H3, H4.
  unfold create_output_directory, bind, ret.
  fold (assets_of output_dir). fold assets. fold css. fold js. fold img.
  rewrite (make_if_missing_step output_dir _ w [] [] w (world_eta w));
    [|intros []].
  rewrite (make_if_missing_step assets _ w _ _ _ eq_refl);
    [|intros H; apply in_added in H; cbn [In] in H; intuition congruence].
  rewrite (make_if_missing_step css _ w _ _ _ eq_refl);
    [|intros H; repeat (apply in_added in H; destruct H as [H| ->]);
      cbn [In] in *; intuition congruence].
  rewrite (make_if_missing_step js _ w _ _ _ eq_refl);
    [|intros H; repeat (apply in_added in H; destruct H as [H| ->]);
      cbn [In] in *; intuition congruence].
  rewrite (make_if_missing_step img _ w _ _ _ eq_refl);
    [|intros H; repeat (apply in_added in H; destruct H as [H| ->]);
      cbn [In] in *; intuition congruence].
  unfold created_lines, report_directories.
  fold (assets_of output_dir). fold assets. fold css. fold js. fold img.
  cbn [filter].
  destruct (fst (Os.path_exists output_dir w)),
           (fst (Os.path_exists assets w)),
           (fst (Os.path_exists css w)),
           (fst (Os.path_exists js w)),
           (fst (Os.path_exists img w)); reflexivity.
Qed.

Lemma path_exists_spec (p : string) (w : World) :
  fst (Os.path_exists p w) = true <-> is_directory p w \/ is_file p w.
Proof.
  unfold Os.path_exists, is_directory, is_file. cbn [fst].
  rewrite orb_true_iff, !existsb_exists. split.
  - intros [[x [Hx E]]|[x [Hx E]]]; apply String.eqb_eq in E; subst x; auto.
  - intros [H|H]; [left|right]; exists p; (split; [exact H|apply String.eqb_refl]).
Qed.

Lemma created_directory (output_dir : string) (w : World) (p : string) :
  In p (directories w
        ++ filter (fun p => negb (fst (Os.path_exists p w)))
                  (report_directories output_dir)) <->
  is_directory p w \/
  (In p (report_directories output_dir) /\ ~ is_file p w).
Proof.
  rewrite in_app_iff, filter_In. unfold is_directory at 1. split.
  - intros [H|[H Hnew]]; [left; exact H|].
    right. split; [exact H|]. intros Hfile.
    apply negb_true_iff in Hnew.
    rewrite (proj2 (path_exists_spec p w) (or_intror Hfile)) in Hnew.
    discriminate.
  - intros [H|[H Hfile]]; [left; exact H|].
    destruct (fst (Os.path_exists p w)) eqn:E.
    + apply path_exists_spec in E. destruct E as [E|E]; [left; exact E|].
      contradiction.
    + right. split; [exact H|reflexivity].
Qed.

Lemma filter_none {A : Type} (f : A -> bool) (l : list A) :
  (forall x, In x l -> f x = false) -> filter f l = [].
Proof.
  induction l as [|x l IH]; intros H; [reflexivity|].
  cbn [filter]. rewrite (H x (or_introl eq_refl)).
  apply IH. intros y Hy. apply H. right. exact Hy.
Qed.

Lemma plain_report : plain_name "report".
Proof. repeat split; discriminate. Qed.

(** X13.  For an output directory named by a plain name (one name
    without a slash, as the default [report]) and such that none of the
    five directories of a report is taken by a file,
    [create_output_directory] returns the paths of [assets] and of [css],
    [js] and [img] in it, and all five are directories afterwards; the
    directories there before are kept, no file and no figure is touched,
    and a line is printed for the output directory and for [assets] when
    they were not there. *)
Theorem report_directories_created (output_dir : string) (w : World) :
  plain_name output_dir ->
  (forall d, In d (report_directories output_dir) -> ~ is_file d w) ->
  exists w',
    create_output_directory output_dir w =
    ((Os.path_join output_dir "assets",
      Os.path_join (Os.path_join output_dir "assets") "css",
      Os.path_join (Os.path_join output_dir "assets") "js",
      Os.path_join (Os.path_join output_dir "assets") "img"), w') /\
    (forall d, In d (report_directories output_dir) -> is_directory d w') /\
    (forall d, is_directory d w -> is_directory d w') /\
    files w' = files w /\
    figures w' = figures w /\
    stdout w' = stdout w ++ created_lines output_dir w.
Proof.
  intros [Hd _] Hfree. eexists.
  split; [apply create_output_directory_world; exact Hd|].
  cbn [stdout directories files figures]. unfold is_directory at 1 3.
  cbn [directories].
  split; [|split; [|repeat split]].
  - intros d Hin. apply created_directory. right. split; [exact Hin|].
    apply Hfree. exact Hin.
  - intros d Hin. apply created_directory. left. exact Hin.
Qed.

Lemma report_directories_created_witness :
  exists w',
    create_output_directory "report" used =
    (("report/assets", "report/assets/css", "report/assets/js",
      "report/assets/img"), w') /\
    (forall d, In d (report_directories "report") -> is_directory d w') /\
    (forall d, is_directory d used -> is_directory d w') /\
    files w' = files used /\
    figures w' = figures used /\
    stdout w' = stdout used ++ created_lines "report" used.
Proof.
  apply (report_directories_created "report" used).
  - exact plain_report.
  - intros d Hd Hfile. cbn in Hd, Hfile.
    destruct Hfile as [<-|[]].
    destruct Hd as [H|[H|[H|[H|[H|[]]]]]]; discriminate H.
Defined.

(** X14.  For an output directory named by a plain name and such that
    none of the five directories of a report is taken by a file, calling
    [create_output_directory] again on the state it left returns the same
    paths, creates nothing and prints nothing. *)
Theorem create_output_directory_again (output_dir : string) (w : World)
        (paths : string * string * string * string) (w' : World) :
  plain_name output_dir ->
  (forall d, In d (report_directories output_dir) -> ~ is_file d w) ->
  create_output_directory output_dir w = (paths, w') ->
  create_output_directory output_dir w' = (paths, w').
Proof.
  intros [Hd _] Hfree Hfirst.
  rewrite (create_output_directory_world output_dir w Hd) in Hfirst.
  apply pair_equal_spec in Hfirst. destruct Hfirst as [<- <-].
  set (w' := mkWorld _ _ _ _).
  rewrite (create_output_directory_world output_dir w' Hd).
  assert (Hknown : forall d, In d (report_directories output_dir) ->
                             fst (Os.path_exists d w') = true).
  { intros d Hin. apply path_exists_spec. left.
    unfold is_directory, w'. cbn [directories].
    apply created_directory. right. split; [exact Hin|].
    apply Hfree. exact Hin. }
  assert (Hnone : filter (fun p => negb (fst (Os.path_exists p w')))
                         (report_directories output_dir) = []).
  { apply filter_none. intros d Hin. rewrite (Hknown d Hin). reflexivity. }
  rewrite Hnone. unfold created_lines.
  rewrite (Hknown output_dir), (Hknown (assets_of output_dir));
    [|right; left; reflexivity|left; reflexivity].
  cbn [app]. f_equal. symmetry. apply world_eta.
Qed.

Lemma create_output_directory_again_witness :
  exists paths w',
    create_output_directory "report" used = (paths, w') /\
    create_output_directory "report" w' = (paths, w').
Proof.
  eexists. eexists. split; [vm_compute; reflexivity|].
  apply (create_output_directory_again "report" used).
  - exact plain_report.
  - intros d Hd Hfile. cbn in Hd, Hfile.
    destruct Hfile as [<-|[]].
    destruct Hd as [H|[H|[H|[H|[H|[]]]]]]; discriminate H.
  - vm_compute. reflexivity.
Defined.

(** ** Writing the files *)




Section Writing.

Variable argsort : list Q -> list nat.
Variable png_base64 : Figure -> string.
Variable css_content : string.
Variable js_content : string.
Variable render_template : string -> list Report -> string.


End Writing.






(** * The scenarios of the specification, evaluated *)

(** Products A (ratings 5, 5, 4, all Positive) and B (ratings 2, 1, all
    Negative): the ranking is A with 14/3, then B with 3/2; the worst
    product is B. *)
Example accessories_report :
  fst (analyze_category_data Numpy.argsort_quicksort caption accessories
                             (Some "Accessories") idle) =
  Some (mkReport
          (Some "Accessories") 2 5 (17 # 5)
          [ mkTopProduct "A" (14 # 3) ["great"; "good"];
            mkTopProduct "B" (3 # 2) [] ]
          (Some (mkWorstProduct "B" (3 # 2) ["bad"; "awful"]))
          "Sentiment Distribution - Accessories"
          "Rating Distribution - Accessories"
          (dict_get DEFAULT_CATEGORY_IMAGES "Accessories" "")).
Proof. vm_compute. reflexivity. Qed.

Example accessories_sentiment_counts :
  sentiment_counts Numpy.argsort_quicksort
                   (category_rows accessories (Some "Accessories"))
  = [("Positive", 3); ("Negative", 2)].
Proof. vm_compute. reflexivity. Qed.

Example accessories_rating_counts :
  rating_counts Numpy.argsort_quicksort
                (category_rows accessories (Some "Accessories"))
  = [(1%Z, 1); (2%Z, 1); (4%Z, 1); (5%Z, 2)].
Proof. vm_compute. reflexivity. Qed.

(** A product with Neutral reviews only is ranked with no summaries. *)
Example neutral_product_report :
  fst (analyze_category_data Numpy.argsort_quicksort caption accessories
                             (Some "E-readers") idle) =
  Some (mkReport
          (Some "E-readers") 1 1 (3 # 1)
          [ mkTopProduct "C" (3 # 1) [] ]
          (Some (mkWorstProduct "C" (3 # 1) []))
          "Sentiment Distribution - E-readers"
          "Rating Distribution - E-readers"
          (dict_get DEFAULT_CATEGORY_IMAGES "E-readers" "")).
Proof. vm_compute. reflexivity. Qed.

(** The whole run on a table with all its columns: the directories, the
    three files and the lines printed. *)
Example full_run :
  snd (main Numpy.argsort_quicksort caption "css" "js" (fun title _ => title)
            command_line (mkCsv required_columns accessories) idle) =
  mkWorld
    [ "Loading data from reviews.csv...";
      "Generating HTML report with title: Amazon Product Analysis";
      "Created output directory: report";
      "Created assets directory: report/assets";
      "HTML report generated successfully at report/index.html";
      "Done!" ]
    [ "report"; "report/assets"; "report/assets/css"; "report/assets/js";
      "report/assets/img" ]
    [ ("report/assets/css/style.css", "css");
      ("report/assets/js/script.js", "js");
      ("report/index.html", "Amazon Product Analysis") ]
    [].
Proof. vm_compute. reflexivity. Qed.

(** With a stable routine the three best of [eighteen_products] come in
    the order of their groups. *)
Example stable_sort_keeps_ties :
  option_map (fun report => map tp_name (top_products report))
             (fst (analyze_category_data Numpy.argsort_stable caption
                     eighteen_products (Some "Accessories") idle)) =
  Some ["p16"; "p17"; "p18"].
Proof. vm_compute. reflexivity. Qed.

(** Rows without a product name: the missing name counts as one product,
    no product is ranked, and the row without a sentiment label is in no
    bar of the sentiment chart. *)
Example unnamed_report :
  fst (analyze_category_data Numpy.argsort_quicksort caption unnamed
                             (Some "Accessories") idle) =
  Some (mkReport
          (Some "Accessories") 1 2 (6 # 2) [] None
          "Sentiment Distribution - Accessories"
          "Rating Distribution - Accessories"
          (dict_get DEFAULT_CATEGORY_IMAGES "Accessories" "")).
Proof. vm_compute. reflexivity. Qed.
